(** * tools/llm_api.py: environment loading, request shaping, CLI

    A shallow embedding of [src/tools/llm_api.py].  Python statements that
    touch the process environment, the file system, the two output streams
    or the chat-completion transport are written in a small state-and-
    exception monad over an explicit [world]; everything else is a pure
    function.  Third-party callees whose code is not part of the repository
    (python-dotenv's parser, [mimetypes.guess_type], the [OpenAI] client
    constructor, [argparse]'s parser, the codec that [open] picks from the
    locale) are Section variables, so every theorem holds for whatever
    those callees compute. *)

From stdpp Require Import gmap strings list fin_maps.
From Stdlib Require Import Ascii QArith.
Local Open Scope string_scope.
Local Open Scope Z_scope.

(** ** Python values used by the request payload *)

(** The part of Python's object universe that [query_llm] puts into
    [kwargs]: strings, one float literal, lists, and dicts with string keys
    (kept in insertion order). *)
#[warnings="-register-all"]
Inductive pyval : Type :=
| PStr (s : string)
| PFloat (q : Q)
| PList (l : list pyval)
| PDict (d : list (string * pyval)).

(** ** Exceptions *)

Inductive exn : Type :=
| ValueError (msg : string)
| FileNotFoundError (path : string)
| PermissionError (path : string)
| IsADirectoryError (path : string)
| UnicodeDecodeError
| IndexError
| KeyError (key : string)
| SystemExit (code : Z)
| ClientError (derives_Exception : bool) (text : string).

(** [isinstance(e, Exception)]: what [except Exception] catches.
    [SystemExit] derives from [BaseException] only; an error raised by the
    transport carries its own flag. *)
Definition is_Exception (e : exn) : bool :=
  match e with
  | SystemExit _ => false
  | ClientError b _ => b
  | _ => true
  end.

Inductive result (A : Type) : Type :=
| Ok (a : A)
| Raise (e : exn).
Arguments Ok {A} a.
Arguments Raise {A} e.

(** ** Text

    Where the program only passes a [str] on or compares it with a
    literal (names, values, paths, the prompt), it is a [string].  Where
    it looks at the characters (the text of an environment file), it is a
    list of code points. *)

Definition text : Type := list N.

Definition code (c : ascii) : N := N_of_ascii c.
Coercion code : ascii >-> N.

Definition text_of_string (s : string) : text :=
  code <$> String.list_ascii_of_string s.
Coercion text_of_string : string >-> text.

Definition LF : N := 10.
Definition CR : N := 13.

(** The characters [str.strip] removes ([Py_UNICODE_ISSPACE]): tab to
    carriage return, the four separators 28 to 31, space, and the
    Unicode blanks U+0085, U+00A0, U+1680, U+2000 to U+200A, U+2028,
    U+2029, U+202F, U+205F and U+3000. *)
Definition is_space (c : N) : bool :=
  (((9 <=? c) && (c <=? 13)) || ((28 <=? c) && (c <=? 32))
   || (c =? 133) || (c =? 160) || (c =? 5760)
   || ((8192 <=? c) && (c <=? 8202))
   || (c =? 8232) || (c =? 8233) || (c =? 8239) || (c =? 8287)
   || (c =? 12288))%N.

Fixpoint lstrip (s : text) : text :=
  match s with
  | c :: s' => if is_space c then lstrip s' else s
  | [] => []
  end.

Fixpoint rstrip (s : text) : text :=
  match s with
  | [] => []
  | c :: s' =>
      match rstrip s' with
      | [] => if is_space c then [] else [c]
      | r => c :: r
      end
  end.

(** [s.strip()] *)
Definition strip (s : text) : text := rstrip (lstrip s).

(** [c in s] for a one-character [c]. *)
Fixpoint contains_char (c : N) (s : text) : bool :=
  match s with
  | [] => false
  | d :: s' => if N.eqb d c then true else contains_char c s'
  end.

(** [s.startswith(c)] for a one-character [c]. *)
Definition startswith_char (c : N) (s : text) : bool :=
  match s with
  | d :: _ => N.eqb d c
  | [] => false
  end.

(** [s.split(sep)] for a one-character separator: every piece, empty ones
    included; the result is never the empty list. *)
Fixpoint split (sep : N) (s : text) : list text :=
  match s with
  | [] => [[]]
  | c :: s' =>
      if N.eqb c sep then [] :: split sep s'
      else match split sep s' with
           | p :: ps => (c :: p) :: ps
           | [] => [[c]]
           end
  end.

Arguments contains_char c%_char s.
Arguments startswith_char c%_char s.
Arguments split sep%_char s.

(** What text mode makes of the line ends it reads (the default
    [newline=None]): a carriage return, alone or followed by a line feed,
    becomes one line feed.  [after_cr] tells that the previous character
    was a carriage return. *)
Fixpoint universal_newlines_from (after_cr : bool) (s : text) : text :=
  match s with
  | [] => []
  | c :: s' =>
      if N.eqb c CR then LF :: universal_newlines_from true s'
      else if N.eqb c LF then
        if after_cr then universal_newlines_from false s'
        else LF :: universal_newlines_from false s'
      else c :: universal_newlines_from false s'
  end.

Definition universal_newlines (s : text) : text :=
  universal_newlines_from false s.

(** Iterating a text-mode file object: the lines with their terminating
    newline kept, the last one possibly without. *)
Fixpoint file_lines (s : text) : list text :=
  match s with
  | [] => []
  | c :: s' =>
      if N.eqb c LF then [c] :: file_lines s'
      else match file_lines s' with
           | l :: ls => (c :: l) :: ls
           | [] => [[c]]
           end
  end.

(** The strict [utf-8] codec on the bytes of a file: one to four bytes a
    character, continuation bytes in 128..191, no overlong form, no
    surrogate, nothing above U+10FFFF.  [None] stands for the
    [UnicodeDecodeError]. *)
Definition utf8_continuation (b : N) : bool := ((128 <=? b) && (b <=? 191))%N.

Fixpoint utf8_decode_bytes (bs : list N) : option text :=
  match bs with
  | [] => Some []
  | b :: rest =>
      if (b <? 128)%N then cons b <$> utf8_decode_bytes rest
      else if ((194 <=? b) && (b <=? 223))%N then
        match rest with
        | c1 :: rest1 =>
            if utf8_continuation c1
            then cons ((b - 192) * 64 + (c1 - 128))%N <$> utf8_decode_bytes rest1
            else None
        | _ => None
        end
      else if ((224 <=? b) && (b <=? 239))%N then
        match rest with
        | c1 :: c2 :: rest2 =>
            let cp := ((b - 224) * 4096 + (c1 - 128) * 64 + (c2 - 128))%N in
            if utf8_continuation c1 && utf8_continuation c2
               && (2048 <=? cp)%N && negb ((55296 <=? cp) && (cp <=? 57343))%N
            then cons cp <$> utf8_decode_bytes rest2
            else None
        | _ => None
        end
      else if ((240 <=? b) && (b <=? 244))%N then
        match rest with
        | c1 :: c2 :: c3 :: rest3 =>
            let cp := ((b - 240) * 262144 + (c1 - 128) * 4096
                       + (c2 - 128) * 64 + (c3 - 128))%N in
            if utf8_continuation c1 && utf8_continuation c2 && utf8_continuation c3
               && (65536 <=? cp)%N && (cp <=? 1114111)%N
            then cons cp <$> utf8_decode_bytes rest3
            else None
        | _ => None
        end
      else None
  end.

Definition utf8_decode (bytes : string) : option text :=
  utf8_decode_bytes (text_of_string bytes).

(** Truth value of an [Optional[str]]: [None] and the empty string are
    falsy. *)
Definition truthy (o : option string) : bool :=
  match o with
  | Some (String _ _) => true
  | _ => false
  end.

(** [xs[0]] *)
Definition index0 {A} (xs : list A) : result A :=
  match xs !! 0%nat with
  | Some x => Ok x
  | None => Raise IndexError
  end.

(** ** The world *)

(** A directory entry that [Path.exists] reports: a regular file whose
    bytes can be read, a regular file that may not be opened, or a
    directory. *)
Inductive fentry : Type :=
| Readable (content : string)
| Unreadable
| Directory.

(** One constructor per [print(..., file=sys.stderr)] statement of the
    module, carrying the values that are formatted into the line; the
    last one is for what [argparse] writes there itself. *)
Inductive diag : Type :=
| DCwd (dir : string)
| DLooking (files : list string)
| DChecking (dir file : string)
| DFound (file : string)
| DLoaded (file : string)
| DKeys (file : string) (keys : list text)
| DNoEnvFiles
| DSystemVars (names : list string)
| DQueryError (e : exn)
| DArgparse (line : string).

(** The result of [client.chat.completions.create]: the message content
    of each choice ([None] when the message carries no text). *)
Record response : Type := Response { choices : list (option string) }.

(** A client handle, seen through its only use:
    [client.chat.completions.create( **kwargs )]. *)
Definition Client : Type := gmap string pyval → result response.

Record world : Type := World {
  environ : gmap string string;      (* os.environ *)
  fs : gmap string fentry;           (* files, by the path given to open *)
  stderr : list diag;
  stdout : list string;              (* one entry per print() *)
  requests : list (gmap string pyval) (* payloads handed to the transport *)
}.

Definition set_environ (f : gmap string string → gmap string string) (w : world) : world :=
  World (f (environ w)) (fs w) (stderr w) (stdout w) (requests w).
Definition add_stderr (d : diag) (w : world) : world :=
  World (environ w) (fs w) (stderr w ++ [d]) (stdout w) (requests w).
Definition add_stdout (s : string) (w : world) : world :=
  World (environ w) (fs w) (stderr w) (stdout w ++ [s]) (requests w).
Definition add_request (kw : gmap string pyval) (w : world) : world :=
  World (environ w) (fs w) (stderr w) (stdout w) (requests w ++ [kw]).

(** ** State and exceptions *)

(** A Python statement: it runs in a world, leaves a world behind, and
    either completes with a value or raises.  Effects made before a raise
    persist. *)
Definition M (A : Type) : Type := world → result A * world.

Definition ret {A} (a : A) : M A := λ w, (Ok a, w).
Definition bind {A B} (c : M A) (k : A → M B) : M B :=
  λ w, match c w with
       | (Ok a, w') => k a w'
       | (Raise e, w') => (Raise e, w')
       end.
Definition raise {A} (e : exn) : M A := λ w, (Raise e, w).
Definition lift {A} (r : result A) : M A := λ w, (r, w).
Definition gets {A} (f : world → A) : M A := λ w, (Ok (f w), w).
Definition modify (f : world → world) : M unit := λ w, (Ok tt, f w).

(** [try: body  except Exception as e: handler(e)] *)
Definition try_except {A} (body : M A) (handler : exn → M A) : M A :=
  λ w, match body w with
       | (Raise e, w') => if is_Exception e then handler e w' else (Raise e, w')
       | ok => ok
       end.

Declare Scope py_scope.
Delimit Scope py_scope with py.
Notation "x <- c ;; k" := (bind c (λ x, k))
  (at level 100, c at next level, right associativity) : py_scope.
Notation "c ;;; k" := (bind c (λ _, k))
  (at level 100, right associativity) : py_scope.
Local Open Scope py_scope.

Definition eprint (d : diag) : M unit := modify (add_stderr d).
Definition print (s : string) : M unit := modify (add_stdout s).

(** [open(path, "rb")] followed by reading the whole file. *)
Definition read_file (path : string) : M string :=
  λ w, match fs w !! path with
       | Some (Readable content) => (Ok content, w)
       | Some Unreadable => (Raise (PermissionError path), w)
       | Some Directory => (Raise (IsADirectoryError path), w)
       | None => (Raise (FileNotFoundError path), w)
       end.

(** [open(path, encoding=...)] in text mode, read to the end: the bytes
    go through the codec, which may reject them, and then through the
    translation of line ends. *)
Definition read_text (decode : string → option text) (path : string) : M text :=
  content <- read_file path ;;
  match decode content with
  | Some decoded => ret (universal_newlines decoded)
  | None => raise UnicodeDecodeError
  end.

(** [Path.exists] *)
Definition path_exists (path : string) : M bool :=
  gets (λ w, bool_decide (is_Some (fs w !! path))).

(** ** Standard base64

    Modelled from the spec: [base64.b64encode] is library code; section
    4.2 asks for "a standard base64 text encoding of the raw bytes", which
    is the encoding of RFC 4648, section 4. *)

Definition b64_alphabet : string :=
  "ABCDEFGHIJKLMNOPQRSTUVWXYZabcdefghijklmnopqrstuvwxyz0123456789+/".

Definition b64_digit (n : nat) : ascii :=
  default "="%char (String.get (n mod 64) b64_alphabet).

(** Three bytes give four digits; a final group of one or two bytes is
    padded with [=]. *)
Fixpoint b64_groups (bs : list nat) : string :=
  match bs with
  | [] => EmptyString
  | [a] =>
      String (b64_digit (a / 4))
        (String (b64_digit (a mod 4 * 16)) "==")
  | [a; b] =>
      String (b64_digit (a / 4))
        (String (b64_digit (a mod 4 * 16 + b / 16))
           (String (b64_digit (b mod 16 * 4)) "="))
  | a :: b :: c :: rest =>
      String (b64_digit (a / 4))
        (String (b64_digit (a mod 4 * 16 + b / 16))
           (String (b64_digit (b mod 16 * 4 + c / 64))
              (String (b64_digit (c mod 64)) (b64_groups rest))))
  end%nat.

Definition b64encode (bytes : string) : string :=
  b64_groups (nat_of_ascii <$> String.list_ascii_of_string bytes).

(** The decoder, to state that nothing is lost. *)
Fixpoint index_from (i : nat) (c : ascii) (s : string) : option nat :=
  match s with
  | EmptyString => None
  | String d s' => if Ascii.eqb d c then Some i else index_from (S i) c s'
  end.

Definition b64_value (c : ascii) : option nat := index_from 0 c b64_alphabet.

Fixpoint b64_ungroup (cs : list ascii) : option (list nat) :=
  match cs with
  | [] => Some []
  | c1 :: c2 :: c3 :: c4 :: rest =>
      v1 ← b64_value c1; v2 ← b64_value c2;
      if Ascii.eqb c4 "=" then
        match rest with
        | [] =>
            if Ascii.eqb c3 "=" then Some [v1 * 4 + v2 / 16]
            else v3 ← b64_value c3;
                 Some [v1 * 4 + v2 / 16; v2 mod 16 * 16 + v3 / 4]
        | _ => None
        end
      else
        v3 ← b64_value c3; v4 ← b64_value c4;
        tail ← b64_ungroup rest;
        Some (v1 * 4 + v2 / 16 :: v2 mod 16 * 16 + v3 / 4 :: v3 mod 4 * 64 + v4 :: tail)
  | _ => None
  end%nat.

Definition b64decode (s : string) : option string :=
  bs ← b64_ungroup (String.list_ascii_of_string s);
  Some (String.string_of_list_ascii (ascii_of_nat <$> bs)).


(** The status the interpreter exits with: 0 after a normal return, the
    code of a [SystemExit], 1 after any other uncaught exception. *)
Definition exit_status {A} (r : result A) : Z :=
  match r with
  | Ok _ => 0
  | Raise (SystemExit code) => code
  | Raise _ => 1
  end.

(** ** The command line *)

(** The namespace [parser.parse_args()] returns. *)
Record args : Type := Args {
  arg_prompt : string;
  arg_model : option string;
  arg_image : option string
}.

(** What [parser.parse_args()] makes of the command line: the arguments,
    or, for [--help] and for a command line it rejects, some lines on
    stdout and on stderr followed by [SystemExit]. *)
Inductive parsed : Type :=
| Parsed (a : args)
| ParserExit (out err : list string) (code : Z).

(** ** Sample callees and worlds

    Concrete stand-ins for the third-party callees, used to run the model
    on examples. *)

(** A name or value as the environment keeps it, for text whose
    characters are below 256. *)
Definition string_of_text (t : text) : string :=
  String.string_of_list_ascii (ascii_of_N <$> t).

(** [KEY=VALUE] lines, no quoting and no variable expansion; later
    bindings of a name replace earlier ones. *)
Definition sample_binding (line : text) : option (string * option string) :=
  if startswith_char "#" (lstrip line) then None
  else match split "=" line with
       | [name] => if String.eqb (string_of_text (strip name)) EmptyString then None
                   else Some (string_of_text (strip name), None)
       | name :: value :: _ =>
           Some (string_of_text (strip name), Some (string_of_text (strip value)))
       | [] => None
       end.

Definition sample_dotenv_values (env : gmap string string) (t : text)
    : gmap string (option string) :=
  list_to_map (reverse (omap sample_binding (file_lines t))).

Definition sample_guess_type (path : string) : option string * option string :=
  if String.eqb (String.substring (String.length path - 4) 4 path) ".jpg"
  then (Some "image/jpeg", None)
  else (None, None).

(** A transport that answers every request with one choice. *)
Definition answering (text : string) : Client :=
  λ _, Ok (Response [Some text]).

(** A transport that fails every request. *)
Definition failing (e : exn) : Client := λ _, Raise e.

Definition unlines (ls : list string) : string :=
  foldr (λ l acc, l +:+ String "010" acc) EmptyString ls.

Definition sample_fs : gmap string fentry :=
  <[".env.local" := Readable (unlines ["# local"; "OPENAI_API_KEY = sk-local"; "MODE=dev"])]>
  (<[".env" := Readable (unlines ["MODE=prod"; "REGION=eu"; "not a binding"])]>
  (<[".env.example" := Readable (unlines ["OPENAI_API_KEY=sk-example"; "REGION=us"; "TIMEOUT=30"])]>
  (<["cat.jpg" := Readable "foobar"]>
  (<["copy.png" := Readable "foobar"]>
  (<["photos" := Directory]>
  (<["locked.png" := Unreadable]> ∅)))))).

Definition sample_world : world :=
  World (<["MODE" := "system"]> (<["HOME" := "/root"]> ∅)) sample_fs [] [] [].

Definition bare_world : world := World ∅ ∅ [] [] [].

(** A world whose environment holds a credential and nothing else. *)
Definition keyed_world : world :=
  World (<["OPENAI_API_KEY" := "sk-test"]> ∅) ∅ [] [] [].

Definition timeout_error : exn := ClientError true "Request timed out.".

(** The keyword arguments expected for the prompt "Hello" with no model
    and no attachment, written out. *)
Definition hello_payload : gmap string pyval :=
  <["model" := PStr "gpt-4o"]>
    (<["messages" :=
         PList [PDict [("role", PStr "user");
                       ("content",
                        PList [PDict [("type", PStr "text");
                                      ("text", PStr "Hello")]])]]]>
       (<["temperature" := PFloat (7 # 10)]> ∅)).

(** A world where the second candidate is there but cannot be opened. *)
Definition locked_env_world : world :=
  World ∅
    (<[".env.local" := Readable (unlines ["OPENAI_API_KEY=sk-local"])]>
     (<[".env" := Unreadable]>
     (<[".env.example" := Readable (unlines ["REGION=us"])]> ∅)))
    [] [] [].

(** A codec that accepts every byte, as a Latin-1 locale does. *)
Definition latin1_decode (bytes : string) : option text :=
  Some (text_of_string bytes).

(** A codec that accepts the bytes below 128 only, as the C locale
    does. *)
Definition ascii_decode (bytes : string) : option text :=
  if forallb (λ c, (c <? 128)%N) (text_of_string bytes)
  then Some (text_of_string bytes) else None.

(** The bytes 41 A0 3D 31: not UTF-8, since A0 cannot start a
    character. *)
Definition stray_byte_line : string :=
  String "A" (String "160" (String "=" (String "1" EmptyString))).

(** The UTF-8 bytes C3 A0 3D 31 of a line that binds the name U+00E0. *)
Definition accented_line : string :=
  String "195" (String "160" (String "=" (String "1" EmptyString))).

(** Worlds whose only candidate is .env, holding the given entry. *)
Definition env_only_world (entry : fentry) : world :=
  World ∅ (<[".env" := entry]> ∅) [] [] [].

Definition sample_usage : string :=
  "usage: llm_api.py [-h] --prompt PROMPT [--model MODEL] [--image IMAGE]".

(** A parser for the three options in their long form, each followed by
    its value; [--help] and [-h] ask for the help text. *)
Fixpoint sample_options (argv : list string) (prompt model image : option string)
    : parsed :=
  match argv with
  | [] =>
      match prompt with
      | Some p => Parsed (Args p model image)
      | None =>
          ParserExit [] [sample_usage;
                         "llm_api.py: error: the following arguments are required: --prompt"]
                     2
      end
  | [option] =>
      if String.eqb option "--help" || String.eqb option "-h"
      then ParserExit [sample_usage; "Query OpenAI with a prompt"] [] 0
      else ParserExit [] [sample_usage; "llm_api.py: error: " +:+ option] 2
  | option :: value :: rest =>
      if String.eqb option "--help" || String.eqb option "-h"
      then ParserExit [sample_usage; "Query OpenAI with a prompt"] [] 0
      else if String.eqb option "--prompt"
      then sample_options rest (Some value) model image
      else if String.eqb option "--model"
      then sample_options rest prompt (Some value) image
      else if String.eqb option "--image"
      then sample_options rest prompt model (Some value)
      else ParserExit [] [sample_usage; "llm_api.py: error: " +:+ option] 2
  end.

Definition sample_parse_args (argv : list string) : parsed :=
  sample_options argv None None None.

(** ** The module, top to bottom *)

Section llm_api.

Local Set Default Proof Using "Type".

(** The current working directory, as [Path('.').absolute()] reports it. *)
Variable cwd : string.

(** python-dotenv's parser: the bindings a file's text yields, given the
    process environment at the time of the call (variable references in
    values are expanded against it).  A name the file mentions without a
    value is bound to [None]. *)
Variable dotenv_values : gmap string string → text → gmap string (option string).

(** The codec of [open(path)] when no encoding is given, the one of the
    locale: the decoded text, or [None] for a [UnicodeDecodeError]. *)
Variable locale_decode : string → option text.

(** [mimetypes.guess_type]: the pair (type, encoding). *)
Variable guess_type : string → option string * option string.

(** The [OpenAI(api_key=...)] constructor. *)
Variable OpenAI : string → Client.

(** *** load_environment *)

Definition env_files : list string := [".env.local"; ".env"; ".env.example"].

(** Modelled from the spec: python-dotenv is library code.  [load_dotenv]
    is called with its default [override=False], which section 4.1 words
    as "do not override already-set keys": going through the parsed
    bindings, a name already in [os.environ] is skipped; a name without a
    value is not exported. *)
Definition set_as_environment_variables
    (d : gmap string (option string)) (env : gmap string string) : gmap string string :=
  map_fold (λ k v env,
              if bool_decide (is_Some (env !! k)) then env
              else match v with
                   | Some s => <[k := s]> env
                   | None => env
                   end) env d.

(** [load_dotenv(dotenv_path=path)].  Modelled from the spec, with the
    library's way of reading: a path that is not a regular file is passed
    over in silence; a regular file is opened as [utf-8] text. *)
Definition load_dotenv (path : string) : M unit :=
  is_file <- gets (λ w, match fs w !! path with
                        | Some (Readable _) | Some Unreadable => true
                        | Some Directory | None => false
                        end) ;;
  if is_file then
    text <- read_text utf8_decode path ;;
    env <- gets environ ;;
    modify (set_environ (set_as_environment_variables (dotenv_values env text)))
  else ret tt.

(** [[line.split('=')[0].strip() for line in f
       if '=' in line and not line.startswith('#')]] *)
Fixpoint keys_comprehension (lines : list text) : result (list text) :=
  match lines with
  | [] => Ok []
  | line :: rest =>
      if contains_char "=" line && negb (startswith_char "#" line) then
        match index0 (split "=" line) with
        | Ok s =>
            match keys_comprehension rest with
            | Ok keys => Ok (strip s :: keys)
            | Raise e => Raise e
            end
        | Raise e => Raise e
        end
      else keys_comprehension rest
  end.

(** The body of [for env_file in env_files], with [env_loaded] threaded
    through. *)
Fixpoint load_each (files : list string) (env_loaded : bool) : M bool :=
  match files with
  | [] => ret env_loaded
  | env_file :: rest =>
      eprint (DChecking cwd env_file) ;;;
      found <- path_exists env_file ;;
      if found then
        eprint (DFound env_file) ;;;
        load_dotenv env_file ;;;
        eprint (DLoaded env_file) ;;;
        text <- read_text locale_decode env_file ;;
        keys <- lift (keys_comprehension (file_lines text)) ;;
        eprint (DKeys env_file keys) ;;;
        load_each rest true
      else load_each rest env_loaded
  end.

Definition load_environment : M unit :=
  eprint (DCwd cwd) ;;;
  eprint (DLooking env_files) ;;;
  env_loaded <- load_each env_files false ;;
  if negb env_loaded then
    eprint DNoEnvFiles ;;;
    names <- gets (λ w, (map_to_list (environ w)).*1) ;;
    eprint (DSystemVars names)
  else ret tt.

(** *** encode_image_file *)

Definition encode_image_file (image_path : string) : M (string * string) :=
  let mime_type := (guess_type image_path).1 in
  let mime_type :=
    match mime_type with
    | Some m => if truthy (Some m) then m else "image/png"
    | None => "image/png"
    end in
  bytes <- read_file image_path ;;
  let encoded_string := b64encode bytes in
  ret (encoded_string, mime_type).

(** *** create_llm_client *)

Definition create_llm_client : M Client :=
  api_key <- gets (λ w, environ w !! "OPENAI_API_KEY") ;;
  match api_key with
  | Some key =>
      if negb (truthy (Some key))
      then raise (ValueError "OPENAI_API_KEY not found in environment variables")
      else ret (OpenAI key)
  | None => raise (ValueError "OPENAI_API_KEY not found in environment variables")
  end.

(** *** query_llm *)

Definition text_block (prompt : string) : pyval :=
  PDict [("type", PStr "text"); ("text", PStr prompt)].

Definition image_block (url : string) : pyval :=
  PDict [("type", PStr "image_url"); ("image_url", PDict [("url", PStr url)])].

Definition data_url (mime_type encoded_image : string) : string :=
  "data:" +:+ mime_type +:+ ";base64," +:+ encoded_image.

Definition user_message (content : list pyval) : pyval :=
  PDict [("role", PStr "user"); ("content", PList content)].

(** Lines 93-107: the message list, its content first filled with the
    text block and then, for a truthy [image_path], replaced by the
    text block followed by the image block. *)
Definition build_messages (prompt : string) (image_path : option string) : M (list pyval) :=
  let content := ([] ++ [text_block prompt])%list in
  content <-
    match image_path with
    | Some path =>
        if truthy (Some path) then
          r <- encode_image_file path ;;
          let '(encoded_image, mime_type) := r in
          ret [text_block prompt; image_block (data_url mime_type encoded_image)]
        else ret content
    | None => ret content
    end ;;
  ret [user_message content].

(** [del d[k]] *)
Definition py_del (k : string) (d : gmap string pyval) : result (gmap string pyval) :=
  if bool_decide (is_Some (d !! k)) then Ok (delete k d) else Raise (KeyError k).

(** Lines 109-119: the keyword arguments of the call. *)
Definition build_kwargs (model : string) (messages : list pyval) : result (gmap string pyval) :=
  let kwargs : gmap string pyval :=
    <["temperature" := PFloat (7 # 10)]>
      (<["messages" := PList messages]> (<["model" := PStr model]> ∅)) in
  if String.eqb model "o1" then
    let kwargs := <["response_format" := PDict [("type", PStr "text")]]> kwargs in
    let kwargs := <["reasoning_effort" := PStr "low"]> kwargs in
    py_del "temperature" kwargs
  else Ok kwargs.

(** [client.chat.completions.create( **kwargs )]: the payload leaves the
    process, then the call returns or raises. *)
Definition create (client : Client) (kwargs : gmap string pyval) : M response :=
  modify (add_request kwargs) ;;;
  lift (client kwargs).

Definition query_llm (prompt : string) (client : option Client)
    (model image_path : option string) : M (option string) :=
  client <- match client with
            | None => create_llm_client
            | Some c => ret c
            end ;;
  try_except
    (let model := match model with None => "gpt-4o" | Some m => m end in
     messages <- build_messages prompt image_path ;;
     kwargs <- lift (build_kwargs model messages) ;;
     response <- create client kwargs ;;
     content <- lift (index0 (choices response)) ;;
     ret content)
    (λ e, eprint (DQueryError e) ;;; ret None).

(** *** main *)

(** Lines 135-139 of [main]: what it does once [parse_args] has
    returned the arguments [a]. *)
Definition main (a : args) : M unit :=
  response <- query_llm (arg_prompt a) None (arg_model a) (arg_image a) ;;
  match response with
  | Some text => if truthy (Some text) then print text else raise (SystemExit 1)
  | None => raise (SystemExit 1)
  end.

Variable parse_args : list string → parsed.

(** [main()] from its first line, run on the command line [argv]. *)
Definition run_cli (argv : list string) : M unit :=
  match parse_args argv with
  | Parsed a => main a
  | ParserExit out err code =>
      modify (λ w, World (environ w) (fs w) (stderr w ++ (DArgparse <$> err))
                     (stdout w ++ out) (requests w)) ;;;
      raise (SystemExit code)
  end.

(** The script run as [__main__], after the command line has been
    parsed into [a]: the import-time [load_environment()], then [main]. *)
Definition script (a : args) : M unit :=
  load_environment ;;; main a.

(** The script run as [__main__] on the command line [argv]. *)
Definition run_script (argv : list string) : M unit :=
  load_environment ;;; run_cli argv.

(** ** Specification-side vocabulary *)

(** The bindings a candidate file contributes when it is loaded in
    environment [env]: the names its text gives a value to.  A file that
    is not there contributes nothing. *)
Definition source (env : gmap string string) (files : gmap string fentry)
    (file : string) : gmap string string :=
  match files !! file with
  | Some (Readable content) =>
      match utf8_decode content with
      | Some decoded => omap id (dotenv_values env (universal_newlines decoded))
      | None => ∅
      end
  | _ => ∅
  end.

(** The first value in a list of lookups ordered by precedence. *)
Definition first_defined (l : list (option string)) : option string :=
  foldr (λ o rest, match o with Some v => Some v | None => rest end) None l.

(** No candidate file is present but unopenable. *)
Definition candidates_readable (w : world) : bool :=
  forallb (λ f, match fs w !! f with Some Unreadable => false | _ => true end)
    env_files.

(** The environment after the candidates in [names] have been loaded in
    order, each one filling in only the names still unset. *)
Fixpoint resolve (names : list string) (files : gmap string fentry)
    (env : gmap string string) : gmap string string :=
  match names with
  | [] => env
  | f :: rest => resolve rest files (env ∪ source env files f)
  end.

(** A candidate that is not there, or is a regular file that can be
    opened and whose bytes both codecs accept. *)
Definition loadable (files : gmap string fentry) (f : string) : bool :=
  match files !! f with
  | None => true
  | Some (Readable content) =>
      match utf8_decode content, locale_decode content with
      | Some _, Some _ => true
      | _, _ => false
      end
  | Some _ => false
  end.

Definition candidates_loadable (w : world) : bool :=
  forallb (loadable (fs w)) env_files.

(** A line the key listing looks at. *)
Definition listed (line : text) : bool :=
  contains_char "=" line && negb (startswith_char "#" line).

(** The text of [s] before the first occurrence of [c]. *)
Fixpoint before_first (c : N) (s : text) : text :=
  match s with
  | [] => []
  | d :: s' => if N.eqb d c then [] else d :: before_first c s'
  end.
Arguments before_first c%_char s.

(** The key listing as the specification words it: the text before the
    first [=] of every listed line. *)
Definition claimed_keys (t : text) : list text :=
  before_first "=" <$> List.filter listed (file_lines t).

(** The same with surrounding whitespace removed from each key. *)
Definition stripped_keys (t : text) : list text :=
  (λ line, strip (before_first "=" line)) <$> List.filter listed (file_lines t).

(** The key listing reported for a file with the bytes [content]. *)
Definition listing (content : string) : list text :=
  match locale_decode content with
  | Some decoded => stripped_keys (universal_newlines decoded)
  | None => []
  end.

(** What the loop over [names] writes to stderr when every candidate is
    loadable. *)
Fixpoint each_log (names : list string) (files : gmap string fentry) : list diag :=
  match names with
  | [] => []
  | f :: rest =>
      DChecking cwd f ::
      match files !! f with
      | Some (Readable content) => [DFound f; DLoaded f; DKeys f (listing content)]
      | _ => []
      end ++ each_log rest files
  end.

(** The payloads a statement hands to the transport when run in [w]. *)
Definition sent_by {A} (c : M A) (w : world) : list (gmap string pyval) :=
  drop (length (requests w)) (requests (c w).2).

(** What a statement appends to stderr when run in [w]. *)
Definition reported_by {A} (c : M A) (w : world) : list diag :=
  drop (length (stderr w)) (stderr (c w).2).

(** The content type [encode_image_file] settles on for a path. *)
Definition mime_of (path : string) : string :=
  match (guess_type path).1 with
  | Some (String a m) => String a m
  | _ => "image/png"
  end.

(** The content blocks that follow the text block: none without an
    attachment, the image block when the attachment can be read, the I/O
    error otherwise. *)
Definition attachment_blocks (image_path : option string) (w : world)
    : result (list pyval) :=
  match image_path with
  | Some (String a p) =>
      match fs w !! String a p with
      | Some (Readable bytes) =>
          Ok [PDict [("type", PStr "image_url");
                     ("image_url",
                      PDict [("url", PStr ("data:" +:+ mime_of (String a p)
                                           +:+ ";base64," +:+ b64encode bytes))])]]
      | Some Unreadable => Raise (PermissionError (String a p))
      | Some Directory => Raise (IsADirectoryError (String a p))
      | None => Raise (FileNotFoundError (String a p))
      end
  | _ => Ok []
  end.

(** The two request shapes. *)
Definition reasoning_shape (kw : gmap string pyval) : Prop :=
  kw !! "temperature" = None
  ∧ kw !! "reasoning_effort" = Some (PStr "low")
  ∧ kw !! "response_format" = Some (PDict [("type", PStr "text")]).

Definition chat_shape (kw : gmap string pyval) : Prop :=
  kw !! "temperature" = Some (PFloat (7 # 10))
  ∧ kw !! "reasoning_effort" = None
  ∧ kw !! "response_format" = None.

(** What [query_llm] makes of the transport's answer to [kw], in the
    world [w] that already records the request. *)
Definition outcome (c : Client) (kw : gmap string pyval) (w : world)
    : result (option string) * world :=
  match c kw with
  | Ok resp =>
      match choices resp with
      | content :: _ => (Ok content, w)
      | [] => (Ok None, add_stderr (DQueryError IndexError) w)
      end
  | Raise e =>
      if is_Exception e then (Ok None, add_stderr (DQueryError e) w)
      else (Raise e, w)
  end.

(** The client the call ends up using: the one supplied, else one bound
    to the credential, if there is a usable one. *)
Definition resolved_client (client : option Client) (w : world) : option Client :=
  match client with
  | Some c => Some c
  | None =>
      match environ w !! "OPENAI_API_KEY" with
      | Some (String a key) => Some (OpenAI (String a key))
      | _ => None
      end
  end.

Definition missing_credential : exn :=
  ValueError "OPENAI_API_KEY not found in environment variables".

(** The world after [load_dotenv] has gone over a candidate that is
    there: three lines on stderr, and the names the file adds. *)
Definition after_load_dotenv (f : string) (w : world) : world :=
  add_stderr (DLoaded f)
    (set_environ (λ env, env ∪ source env (fs w) f)
       (add_stderr (DFound f) (add_stderr (DChecking cwd f) w))).

(** The world after a loadable candidate has been handled. *)
Definition after_candidate (f content : string) (w : world) : world :=
  add_stderr (DKeys f (listing content)) (after_load_dotenv f w).

(** [w'] differs from [w] only by names added to the environment and
    lines added to stderr. *)
Definition grows (w w' : world) : Prop :=
  fs w' = fs w ∧ stdout w' = stdout w ∧ requests w' = requests w
  ∧ environ w ⊆ environ w' ∧ stderr w `prefix_of` stderr w'.

(** The one way a candidate [f] makes loading fail with [e]: it may not
    be opened, it is a directory, or one of the two codecs rejects its
    bytes. *)
Definition load_failure (files : gmap string fentry) (f : string) (e : exn) : Prop :=
  (files !! f = Some Unreadable ∧ e = PermissionError f)
  ∨ (files !! f = Some Directory ∧ e = IsADirectoryError f)
  ∨ (∃ content, files !! f = Some (Readable content)
                ∧ (utf8_decode content = None ∨ locale_decode content = None)
                ∧ e = UnicodeDecodeError).

(** A line the loop over the candidates writes. *)
Definition is_loop_line (d : diag) : bool :=
  match d with
  | DChecking _ _ | DFound _ | DLoaded _ | DKeys _ _ => true
  | _ => false
  end.

(** Some candidate file is there. *)
Definition any_candidate (w : world) : bool :=
  existsb (λ f, bool_decide (is_Some (fs w !! f))) env_files.

Definition is_checking (d : diag) : bool :=
  match d with
  | DChecking _ _ => true
  | _ => false
  end.

(** What [main] does with the value and world [query_llm] leaves. *)
Definition conclude (q : result (option string) * world) : result unit * world :=
  match q with
  | (Ok (Some (String x text)), w') => (Ok tt, add_stdout (String x text) w')
  | (Ok _, w') => (Raise (SystemExit 1), w')
  | (Raise e, w') => (Raise e, w')
  end.

(** The names to which a file gives a value do not depend on the
    environment it is parsed in (the values may, through expansion). *)
Definition names_fixed : Prop :=
  ∀ env env' text,
    dom (omap id (dotenv_values env text))
    = dom (omap id (dotenv_values env' text)).

(** ** Facts about the pieces *)

Section base64_facts.
Local Open Scope nat_scope.

Lemma b64_value_digit n : (n < 64)%nat → b64_value (b64_digit n) = Some n.
Proof. intros Hn. do 64 (destruct n as [|n]; [reflexivity|]). lia. Qed.

Lemma b64_digit_not_pad n : n < 64 → Ascii.eqb (b64_digit n) "=" = false.
Proof. intros Hn. do 64 (destruct n as [|n]; [reflexivity|]). lia. Qed.

Lemma triples_ind (P : list nat → Prop) :
  P [] → (∀ a, P [a]) → (∀ a b, P [a; b]) →
  (∀ a b c rest, P rest → P (a :: b :: c :: rest)) → ∀ l, P l.
Proof.
  intros H0 H1 H2 H3 l.
  cut (P l ∧ (∀ a, P (a :: l)) ∧ (∀ a b, P (a :: b :: l)));
    [by intros [? _]|].
  induction l as [|x l (IH0 & IH1 & IH2)].
  - split; [exact H0|]. split; [exact H1|exact H2].
  - split; [exact (IH1 x)|]. split; [exact (λ a, IH2 a x)|].
    intros a b. exact (H3 a b x l IH0).
Qed.

Lemma hi_lo a b m : 0 < m → b < m → (a * m + b) / m = a ∧ (a * m + b) mod m = b.
Proof.
  intros Hm Hb. split.
  - symmetry. apply (Nat.div_unique _ m _ b); lia.
  - symmetry. apply (Nat.mod_unique _ m a); lia.
Qed.


Lemma b64_first a x : x < 16 → a / 4 * 4 + (a mod 4 * 16 + x) / 16 = a.
Proof.
  intros Hx. destruct (hi_lo (a mod 4) x 16) as [-> _]; [lia..|].
  pose proof (Nat.div_mod_eq a 4). lia.
Qed.

Lemma b64_second a b y : b < 256 → y < 4 →
  (a mod 4 * 16 + b / 16) mod 16 * 16 + (b mod 16 * 4 + y) / 4 = b.
Proof.
  intros Hb Hy.
  assert (b / 16 < 16) by (apply Nat.Div0.div_lt_upper_bound; lia).
  destruct (hi_lo (a mod 4) (b / 16) 16) as [_ ->]; [lia..|].
  destruct (hi_lo (b mod 16) y 4) as [-> _]; [lia..|].
  pose proof (Nat.div_mod_eq b 16). lia.
Qed.

Lemma b64_third b c : c < 256 →
  (b mod 16 * 4 + c / 64) mod 4 * 64 + c mod 64 = c.
Proof.
  intros Hc.
  assert (c / 64 < 4) by (apply Nat.Div0.div_lt_upper_bound; lia).
  destruct (hi_lo (b mod 16) (c / 64) 4) as [_ ->]; [lia..|].
  pose proof (Nat.div_mod_eq c 64). lia.
Qed.

Lemma b64_digits_lt a b c :
  a < 256 → b < 256 → c < 256 →
  a / 4 < 64 ∧ a mod 4 * 16 + b / 16 < 64 ∧ b mod 16 * 4 + c / 64 < 64
  ∧ c mod 64 < 64.
Proof.
  intros Ha Hb Hc.
  pose proof (Nat.mod_upper_bound a 4 ltac:(lia)).
  pose proof (Nat.mod_upper_bound b 16 ltac:(lia)).
  pose proof (Nat.mod_upper_bound c 64 ltac:(lia)).
  assert (a / 4 < 64) by (apply Nat.Div0.div_lt_upper_bound; lia).
  assert (b / 16 < 16) by (apply Nat.Div0.div_lt_upper_bound; lia).
  assert (c / 64 < 4) by (apply Nat.Div0.div_lt_upper_bound; lia).
  lia.
Qed.

Lemma b64_ungroup_groups bs :
  Forall (λ b, b < 256) bs →
  b64_ungroup (String.list_ascii_of_string (b64_groups bs)) = Some bs.
Proof.
  induction bs as [|a|a b|a b c rest IH] using triples_ind; intros Hbs.
  - reflexivity.
  - apply Forall_cons in Hbs as [Ha _].
    destruct (b64_digits_lt a 0 0) as (H1 & H2 & _); [lia..|].
    cbn [b64_groups String.list_ascii_of_string b64_ungroup].
    replace (a mod 4 * 16) with (a mod 4 * 16 + 0) by lia.
    replace (0 / 16) with 0 in H2 by done.
    rewrite !b64_value_digit by done. cbn [mbind option_bind].
    rewrite !Ascii.eqb_refl. by rewrite b64_first by lia.
  - apply Forall_cons in Hbs as [Ha Hbs]. apply Forall_cons in Hbs as [Hb _].
    destruct (b64_digits_lt a b 0) as (H1 & H2 & H3 & _); [lia..|].
    replace (0 / 64) with 0 in H3 by done.
    cbn [b64_groups String.list_ascii_of_string b64_ungroup].
    replace (b mod 16 * 4) with (b mod 16 * 4 + 0) by lia.
    rewrite !b64_value_digit by done. cbn [mbind option_bind].
    rewrite Ascii.eqb_refl, b64_digit_not_pad by done.
    rewrite b64_first by (apply Nat.Div0.div_lt_upper_bound; lia).
    by rewrite b64_second by lia.
  - apply Forall_cons in Hbs as [Ha Hbs]. apply Forall_cons in Hbs as [Hb Hbs].
    apply Forall_cons in Hbs as [Hc Hbs].
    destruct (b64_digits_lt a b c) as (H1 & H2 & H3 & H4); [lia..|].
    cbn [b64_groups String.list_ascii_of_string b64_ungroup].
    rewrite !b64_value_digit by done. cbn [mbind option_bind].
    rewrite b64_digit_not_pad by done. rewrite IH by done. cbn [mbind option_bind].
    rewrite b64_first by (apply Nat.Div0.div_lt_upper_bound; lia).
    rewrite b64_second by (try apply Nat.Div0.div_lt_upper_bound; lia).
    by rewrite b64_third by lia.
Qed.

Lemma b64decode_b64encode bytes : b64decode (b64encode bytes) = Some bytes.
Proof.
  unfold b64decode, b64encode. rewrite b64_ungroup_groups.
  - cbn [mbind option_bind]. f_equal.
    rewrite <- list_fmap_compose.
    rewrite (list_fmap_ext (ascii_of_nat ∘ nat_of_ascii) id _ (λ _ x _, ascii_nat_embedding x)).
    rewrite list_fmap_id. apply String.string_of_list_ascii_of_string.
  - apply Forall_fmap, Forall_forall. intros c _. apply nat_ascii_bounded.
Qed.

End base64_facts.

Lemma set_as_environment_variables_lookup d env k :
  set_as_environment_variables d env !! k =
  match env !! k with
  | Some v => Some v
  | None => d !! k ≫= id
  end.
Proof.
  unfold set_as_environment_variables.
  apply (map_fold_weak_ind (λ r m, r !! k =
    match env !! k with Some v => Some v | None => m !! k ≫= id end)).
  - rewrite lookup_empty. simpl. by destruct (env !! k).
  - intros i x m r Hi IH.
    destruct (decide (i = k)) as [->|Hne].
    + rewrite lookup_insert_eq. rewrite Hi in IH. simpl in *.
      case_bool_decide as Hr.
      * rewrite IH in *. destruct (env !! k); [done|]. by destruct Hr.
      * destruct x as [s|]; simpl.
        -- rewrite lookup_insert_eq. rewrite IH in Hr.
           destruct (env !! k); [|done]. exfalso. apply Hr. eauto.
        -- rewrite IH. by destruct (env !! k).
    + rewrite (lookup_insert_ne m) by done. rewrite <- IH.
      case_bool_decide; [done|]. destruct x; [|done].
      by rewrite lookup_insert_ne.
Qed.

Lemma set_as_environment_variables_union d env :
  set_as_environment_variables d env = env ∪ omap id d.
Proof.
  apply map_eq. intros k.
  rewrite set_as_environment_variables_lookup, lookup_union, lookup_omap.
  destruct (env !! k), (d !! k ≫= id); done.
Qed.

Lemma split_before_first c s :
  ∃ rest, split c s = before_first c s :: rest.
Proof.
  induction s as [|d s [rest IH]]; simpl; [by eexists|].
  destruct (N.eqb d c); [by eexists|].
  rewrite IH. by eexists.
Qed.

Lemma keys_comprehension_stripped lines :
  keys_comprehension lines =
  Ok ((λ line, strip (before_first "=" line)) <$> List.filter listed lines).
Proof.
  induction lines as [|line rest IH]; [done|].
  cbn [keys_comprehension List.filter].
  change (contains_char "=" line && negb (startswith_char "#" line))
    with (listed line).
  destruct (listed line); [|done].
  destruct (split_before_first "="%char line) as [tl ->].
  unfold index0. cbn [lookup list_lookup fmap list_fmap]. by rewrite IH.
Qed.

(** Unfold the monad's plumbing and the world accessors. *)
Ltac run :=
  cbv beta iota zeta delta
    [bind ret raise lift gets modify eprint print path_exists read_file
     read_text set_environ add_stderr add_stdout add_request];
  cbn [environ fs stderr stdout requests].

(** One turn of the loop of [load_environment], whatever the candidate
    is. *)
Lemma load_each_cons f rest loaded w :
  load_each (f :: rest) loaded w =
  match fs w !! f with
  | None => load_each rest loaded (add_stderr (DChecking cwd f) w)
  | Some Unreadable =>
      (Raise (PermissionError f),
       add_stderr (DFound f) (add_stderr (DChecking cwd f) w))
  | Some Directory => (Raise (IsADirectoryError f), after_load_dotenv f w)
  | Some (Readable content) =>
      match utf8_decode content with
      | None =>
          (Raise UnicodeDecodeError,
           add_stderr (DFound f) (add_stderr (DChecking cwd f) w))
      | Some _ =>
          match locale_decode content with
          | None => (Raise UnicodeDecodeError, after_load_dotenv f w)
          | Some _ => load_each rest true (after_candidate f content w)
          end
      end
  end.
Proof.
  destruct w as [env files err out reqs].
  cbn [load_each].
  unfold after_candidate, after_load_dotenv, listing, load_dotenv, source. run.
  destruct (files !! f) as [[content| |]|] eqn:Hfile.
  - rewrite bool_decide_eq_true_2 by eauto. run. rewrite ?Hfile. run.
    rewrite ?Hfile. run.
    destruct (utf8_decode content) as [t8|]; [|done]. run. rewrite ?Hfile. run.
    rewrite set_as_environment_variables_union.
    destruct (locale_decode content) as [tl|]; [|done]. run.
    by rewrite keys_comprehension_stripped.
  - rewrite bool_decide_eq_true_2 by eauto. run. rewrite ?Hfile. run.
    by rewrite ?Hfile.
  - rewrite bool_decide_eq_true_2 by eauto. run. rewrite ?Hfile. run.
    rewrite ?Hfile. by rewrite (right_id_L ∅ (∪)).
  - rewrite bool_decide_eq_false_2 by (intros [? ?]; done). done.
Qed.

Lemma load_each_run names : ∀ loaded w,
  forallb (loadable (fs w)) names = true →
  ∃ loaded',
    load_each names loaded w =
    (Ok loaded',
     World (resolve names (fs w) (environ w)) (fs w)
           (stderr w ++ each_log names (fs w)) (stdout w) (requests w))
    ∧ (loaded' = false →
       loaded = false ∧ resolve names (fs w) (environ w) = environ w).
Proof.
  induction names as [|f rest IH]; intros loaded [env files err out reqs] Hok.
  - exists loaded. simpl. unfold ret. by rewrite app_nil_r.
  - simpl in Hok. apply andb_true_iff in Hok as [Hf Hrest].
    rewrite load_each_cons. cbn [each_log resolve fs environ stderr].
    unfold loadable in Hf. unfold after_candidate, after_load_dotenv.
    destruct (files !! f) as [[content| |]|] eqn:Hfile; try done.
    + destruct (utf8_decode content) as [t8|]; [|done].
      destruct (locale_decode content) as [tl|] eqn:Hl; [|done].
      run. edestruct (IH true) as (b' & -> & Hb'); [exact Hrest|]. run.
      exists b'. split.
      * f_equal. f_equal. by rewrite <- !app_assoc.
      * intros ->. by destruct Hb'.
    + run. edestruct (IH loaded) as (b' & -> & Hb'); [exact Hrest|]. run.
      exists b'. unfold source. rewrite Hfile. split.
      * rewrite (right_id_L ∅ (∪)). f_equal. f_equal.
        by rewrite <- !app_assoc.
      * intros ->. destruct Hb' as [-> Hb']; [done|].
        by rewrite (right_id_L ∅ (∪)).
Qed.

Lemma load_environment_run w :
  candidates_loadable w = true →
  ∃ tail,
    load_environment w =
    (Ok tt,
     World (resolve env_files (fs w) (environ w)) (fs w)
           (stderr w ++ [DCwd cwd; DLooking env_files]
              ++ each_log env_files (fs w) ++ tail)
           (stdout w) (requests w)).
Proof.
  destruct w as [env files err out reqs]. intros Hok.
  unfold load_environment. run.
  destruct (load_each_run env_files false
              (World env files ((err ++ [DCwd cwd]) ++ [DLooking env_files])
                     out reqs) Hok) as (b & Hrun & _).
  cbn [environ fs stderr stdout requests] in Hrun. rewrite Hrun.
  destruct b; cbn [negb]; run; eexists; f_equal; f_equal;
    rewrite <- ?app_assoc; cbn [app]; repeat f_equal.
  symmetry. apply app_nil_r.
Qed.

Lemma load_dotenv_keeps file w r w' k v :
  load_dotenv file w = (r, w') →
  environ w !! k = Some v → environ w' !! k = Some v.
Proof.
  destruct w as [env files err out reqs]. unfold load_dotenv. run.
  intros Hrun Hk. revert Hrun.
  destruct (files !! file) as [[content| |]|] eqn:Hfile; run; rewrite ?Hfile;
    try (by intros [= <- <-]).
  destruct (utf8_decode content); run; intros [= <- <-]; [|done].
  cbn [environ]. by rewrite set_as_environment_variables_lookup, Hk.
Qed.

Lemma each_log_keys names files f content :
  f ∈ names → files !! f = Some (Readable content) →
  DKeys f (listing content) ∈ each_log names files.
Proof.
  intros Hin Hf. induction names as [|g rest IH]; [by apply elem_of_nil in Hin|].
  cbn [each_log]. apply elem_of_cons in Hin as [<-|Hin].
  - rewrite Hf. cbn [app]. do 3 apply list_elem_of_further. apply list_elem_of_here.
  - apply elem_of_cons. right. apply elem_of_app. right. by apply IH.
Qed.

Lemma build_kwargs_ok model messages :
  ∃ kw, build_kwargs model messages = Ok kw
    ∧ kw !! "model" = Some (PStr model)
    ∧ kw !! "messages" = Some (PList messages)
    ∧ (if String.eqb model "o1" then reasoning_shape kw else chat_shape kw).
Proof.
  unfold build_kwargs, py_del, reasoning_shape, chat_shape.
  destruct (String.eqb model "o1").
  - rewrite bool_decide_eq_true_2 by (eexists; by simplify_map_eq).
    eexists. split; [done|]. by simplify_map_eq.
  - eexists. split; [done|]. by simplify_map_eq.
Qed.


Lemma encode_image_file_run path w :
  encode_image_file path w =
  match fs w !! path with
  | Some (Readable bytes) => (Ok (b64encode bytes, mime_of path), w)
  | Some Unreadable => (Raise (PermissionError path), w)
  | Some Directory => (Raise (IsADirectoryError path), w)
  | None => (Raise (FileNotFoundError path), w)
  end.
Proof.
  unfold encode_image_file, mime_of. run.
  destruct (fs w !! path) as [[bytes| |]|]; [|done..].
  by destruct (guess_type path).1 as [[|a m]|].
Qed.

Lemma build_messages_run prompt image_path w :
  build_messages prompt image_path w =
  match attachment_blocks image_path w with
  | Ok blocks => (Ok [user_message (text_block prompt :: blocks)], w)
  | Raise e => (Raise e, w)
  end.
Proof.
  unfold build_messages, attachment_blocks.
  destruct image_path as [[|a p]|]; [done| |done].
  cbn [truthy]. unfold bind at 1. unfold bind at 1.
  rewrite encode_image_file_run.
  by destruct (fs w !! String a p) as [[bytes| |]|].
Qed.

Lemma query_llm_with_client prompt c model image_path w :
  query_llm prompt (Some c) model image_path w =
  match attachment_blocks image_path w with
  | Ok blocks =>
      match build_kwargs (default "gpt-4o" model)
              [user_message (text_block prompt :: blocks)] with
      | Ok kw => outcome c kw (add_request kw w)
      | Raise e => (Ok None, add_stderr (DQueryError e) w)
      end
  | Raise e => (Ok None, add_stderr (DQueryError e) w)
  end.
Proof.
  unfold query_llm, try_except, create, outcome.
  unfold bind at 1. unfold ret at 1. unfold bind at 1.
  rewrite build_messages_run.
  destruct (attachment_blocks image_path w) as [blocks|e] eqn:Hblocks.
  - destruct (build_kwargs_ok (default "gpt-4o" model)
                [user_message (text_block prompt :: blocks)]) as (kw & Hkw & _).
    replace (match model with Some m => m | None => "gpt-4o" end)
      with (default "gpt-4o" model) by (by destruct model).
    rewrite Hkw. run.
    destruct (c kw) as [[[|content rest]]|e]; done.
  - assert (is_Exception e = true) as ->; [|done].
    unfold attachment_blocks in Hblocks.
    destruct image_path as [[|a p]|]; try done.
    destruct (fs w !! String a p) as [[bytes| |]|]; by simplify_eq.
Qed.

Lemma query_llm_no_client prompt model image_path w :
  query_llm prompt None model image_path w =
  match environ w !! "OPENAI_API_KEY" with
  | Some (String a key) =>
      query_llm prompt (Some (OpenAI (String a key))) model image_path w
  | _ => (Raise (ValueError "OPENAI_API_KEY not found in environment variables"), w)
  end.
Proof.
  unfold query_llm, create_llm_client.
  unfold bind at 1. unfold bind at 1. unfold gets at 1.
  destruct (environ w !! "OPENAI_API_KEY") as [[|a key]|]; done.
Qed.

Lemma outcome_requests c kw w : requests (outcome c kw w).2 = requests w.
Proof.
  unfold outcome. destruct (c kw) as [[[|content rest]]|e]; try done.
  by destruct (is_Exception e).
Qed.

Lemma sent_by_query_llm prompt c model image_path w :
  sent_by (query_llm prompt (Some c) model image_path) w =
  match attachment_blocks image_path w with
  | Ok blocks =>
      match build_kwargs (default "gpt-4o" model)
              [user_message (text_block prompt :: blocks)] with
      | Ok kw => [kw]
      | Raise _ => []
      end
  | Raise _ => []
  end.
Proof.
  unfold sent_by. rewrite query_llm_with_client.
  destruct (attachment_blocks image_path w) as [blocks|e].
  - destruct (build_kwargs _ _) as [kw|e].
    + rewrite outcome_requests. cbn. by rewrite drop_app_length.
    + cbn. by rewrite drop_all.
  - cbn. by rewrite drop_all.
Qed.

Lemma sent_by_query_llm_no_client prompt model image_path w :
  sent_by (query_llm prompt None model image_path) w =
  match resolved_client None w with
  | Some c => sent_by (query_llm prompt (Some c) model image_path) w
  | None => []
  end.
Proof.
  unfold sent_by at 1. rewrite query_llm_no_client. unfold resolved_client.
  destruct (environ w !! "OPENAI_API_KEY") as [[|a key]|]; try done;
    cbn; by rewrite drop_all.
Qed.

(** Every payload the call sends, whatever its arguments: the model
    entry, the shape that goes with the model, and the message list. *)
Lemma sent_payloads prompt client model image_path w :
  Forall (λ kw,
            kw !! "model" = Some (PStr (default "gpt-4o" model))
            ∧ (if String.eqb (default "gpt-4o" model) "o1"
               then reasoning_shape kw else chat_shape kw)
            ∧ ∃ blocks, attachment_blocks image_path w = Ok blocks
                ∧ kw !! "messages" =
                  Some (PList [user_message (text_block prompt :: blocks)]))
         (sent_by (query_llm prompt client model image_path) w).
Proof.
  assert (∀ c, Forall (λ kw,
            kw !! "model" = Some (PStr (default "gpt-4o" model))
            ∧ (if String.eqb (default "gpt-4o" model) "o1"
               then reasoning_shape kw else chat_shape kw)
            ∧ ∃ blocks, attachment_blocks image_path w = Ok blocks
                ∧ kw !! "messages" =
                  Some (PList [user_message (text_block prompt :: blocks)]))
         (sent_by (query_llm prompt (Some c) model image_path) w)) as Hc.
  { intros c. rewrite sent_by_query_llm.
    destruct (attachment_blocks image_path w) as [blocks|e]; [|constructor].
    destruct (build_kwargs_ok (default "gpt-4o" model)
                [user_message (text_block prompt :: blocks)])
      as (kw & -> & Hmodel & Hmsgs & Hshape).
    repeat constructor; eauto. }
  destruct client as [c|]; [apply Hc|].
  rewrite sent_by_query_llm_no_client.
  destruct (resolved_client None w); [apply Hc|constructor].
Qed.


(** What [main] makes of the value [query_llm] returns. *)
Lemma main_run a w :
  main a w =
  match query_llm (arg_prompt a) None (arg_model a) (arg_image a) w with
  | (Ok (Some (String x text)), w') => (Ok tt, add_stdout (String x text) w')
  | (Ok _, w') => (Raise (SystemExit 1), w')
  | (Raise e, w') => (Raise e, w')
  end.
Proof.
  unfold main, bind.
  by destruct (query_llm _ _ _ _ w) as [[[[|x text]|]|e] w'].
Qed.

(** An error of the transport that does not derive from [Exception]
    passes through the [except] clause. *)
Lemma transport_interrupt_propagates prompt c model w text :
  (∀ kw, c kw = Raise (ClientError false text)) →
  (query_llm prompt (Some c) model None w).1 = Raise (ClientError false text).
Proof.
  intros Hfail. rewrite query_llm_with_client. cbn [attachment_blocks].
  destruct (build_kwargs_ok (default "gpt-4o" model)
              [user_message [text_block prompt]]) as (kw & -> & _).
  unfold outcome. by rewrite Hfail.
Qed.

(** The whole script, started with no candidate file and no credential:
    it ends on the configuration error, before any request. *)
Lemma script_without_configuration a w :
  (∀ f, f ∈ env_files → fs w !! f = None) →
  truthy (environ w !! "OPENAI_API_KEY") = false →
  ∃ w',
    script a w = (Raise missing_credential, w')
    ∧ requests w' = requests w
    ∧ stdout w' = stdout w
    ∧ exit_status (script a w).1 = 1.
Proof.
  intros Hnone Hkey.
  pose proof (Hnone ".env.local" ltac:(repeat constructor)) as H1.
  pose proof (Hnone ".env" ltac:(repeat constructor)) as H2.
  pose proof (Hnone ".env.example" ltac:(repeat constructor)) as H3.
  assert (candidates_loadable w = true) as Hok.
  { unfold candidates_loadable, loadable, env_files. cbn [forallb].
    by rewrite H1, H2, H3. }
  destruct (load_environment_run w Hok) as [tail Hrun].
  assert (resolve env_files (fs w) (environ w) = environ w) as Henv.
  { unfold env_files, resolve, source. rewrite H1, H2, H3.
    by rewrite !(right_id_L ∅ (∪)). }
  rewrite Henv in Hrun.
  assert (∃ w', script a w = (Raise missing_credential, w')
                ∧ requests w' = requests w ∧ stdout w' = stdout w)
    as (w' & Hscript & Hreq & Hout).
  { unfold script, bind. rewrite Hrun, main_run, query_llm_no_client.
    cbn [environ].
    destruct (environ w !! "OPENAI_API_KEY") as [[|x key]|]; try done;
      eexists; repeat split. }
  exists w'. by rewrite Hscript.
Qed.

(** ** The claims *)

(** C1.  Provided every candidate file that is there is a regular file
    that can be opened and decoded, [load_environment] returns, and the
    value it leaves for any name [k] is the first one defined in the
    order: system environment, .env.local, .env, .env.example (each file
    read in the environment as it stands when its turn comes).  In
    particular a value of the system environment survives, and no single
    [load_dotenv] call changes a name that already has a value. *)
Theorem load_environment_precedence (w : world) (k : string) :
  candidates_loadable w = true →
  ∃ w',
    load_environment w = (Ok tt, w') ∧
    let sys := environ w in
    let env_local := source sys (fs w) ".env.local" in
    let env1 := sys ∪ env_local in
    let env_project := source env1 (fs w) ".env" in
    let env2 := env1 ∪ env_project in
    let env_example := source env2 (fs w) ".env.example" in
    environ w' !! k =
      first_defined [sys !! k; env_local !! k; env_project !! k; env_example !! k]
    ∧ (∀ v, sys !! k = Some v → environ w' !! k = Some v)
    ∧ (∀ file w0 r w1 k0 v,
         load_dotenv file w0 = (r, w1) →
         environ w0 !! k0 = Some v → environ w1 !! k0 = Some v).
Proof.
  intros Hok. destruct (load_environment_run w Hok) as [tail Hrun].
  eexists. split; [exact Hrun|]. cbn zeta. cbn [environ resolve env_files].
  assert (∀ a b c d : gmap string string,
            (a ∪ b ∪ c ∪ d) !! k = first_defined [a !! k; b !! k; c !! k; d !! k])
    as Hfirst.
  { intros a b c d. rewrite !lookup_union. simpl.
    destruct (a !! k), (b !! k), (c !! k), (d !! k); done. }
  split; [apply Hfirst|]. split.
  - intros v Hv. rewrite Hfirst, Hv. done.
  - intros file w0 r w1 k0 v. apply load_dotenv_keeps.
Qed.




(** C5.  When the request [kw] gets built and the transport raises on it
    an error [e] that derives from [Exception], [query_llm] does not
    raise: it returns [None], having handed the request over once and
    written to stderr the one diagnostic carrying [e].  Called from
    [main], where no client is passed, the process then ends through
    [sys.exit(1)], with nothing printed to stdout. *)
Theorem transport_failure_absorbed (prompt : string) (client : option Client)
    (model image_path : option string) (w : world)
    (c : Client) (blocks : list pyval) (kw : gmap string pyval) (e : exn) :
  resolved_client client w = Some c →
  attachment_blocks image_path w = Ok blocks →
  build_kwargs (default "gpt-4o" model)
    [user_message (text_block prompt :: blocks)] = Ok kw →
  c kw = Raise e →
  is_Exception e = true →
  query_llm prompt client model image_path w =
    (Ok None, add_stderr (DQueryError e) (add_request kw w))
  ∧ sent_by (query_llm prompt client model image_path) w = [kw]
  ∧ reported_by (query_llm prompt client model image_path) w = [DQueryError e]
  ∧ match client with
    | None =>
        main (Args prompt model image_path) w =
          (Raise (SystemExit 1), add_stderr (DQueryError e) (add_request kw w))
        ∧ exit_status (main (Args prompt model image_path) w).1 = 1
    | Some _ => True
    end.
Proof.
  intros Hclient Hblocks Hkw Hfail Hexc.
  assert (query_llm prompt (Some c) model image_path w =
          (Ok None, add_stderr (DQueryError e) (add_request kw w))) as Hrun.
  { rewrite query_llm_with_client, Hblocks, Hkw. unfold outcome.
    by rewrite Hfail, Hexc. }
  assert (query_llm prompt client model image_path w =
          (Ok None, add_stderr (DQueryError e) (add_request kw w))) as Hrun'.
  { destruct client as [c'|]; [by simplify_eq/=|].
    rewrite query_llm_no_client. cbn in Hclient.
    destruct (environ w !! "OPENAI_API_KEY") as [[|a key]|]; by simplify_eq. }
  split; [done|]. unfold sent_by, reported_by. rewrite Hrun'.
  cbn [snd add_stderr add_request environ fs stderr stdout requests].
  rewrite !drop_app_length. do 2 (split; [done|]).
  destruct client; [done|].
  unfold main. cbn [arg_prompt arg_model arg_image].
  unfold bind. by rewrite Hrun'.
Qed.

(** C6.  With no client supplied and no credential in the environment
    (the variable unset, or set to the empty string),
    [query_llm] raises the configuration error and leaves the world as it
    found it: nothing was sent, nothing was reported, the [except] clause
    did not run.  [main] lets the error through. *)
Theorem missing_credential_raises (prompt : string)
    (model image_path : option string) (w : world) :
  truthy (environ w !! "OPENAI_API_KEY") = false →
  query_llm prompt None model image_path w = (Raise missing_credential, w)
  ∧ sent_by (query_llm prompt None model image_path) w = []
  ∧ reported_by (query_llm prompt None model image_path) w = []
  ∧ main (Args prompt model image_path) w = (Raise missing_credential, w).
Proof.
  intros Hkey.
  assert (query_llm prompt None model image_path w = (Raise missing_credential, w))
    as Hrun.
  { rewrite query_llm_no_client.
    by destruct (environ w !! "OPENAI_API_KEY") as [[|a key]|]. }
  unfold sent_by, reported_by, main. cbn [arg_prompt arg_model arg_image].
  unfold bind. rewrite Hrun. cbn. by rewrite !drop_all.
Qed.

(** C7, as the code has it.  For a non-empty attachment path that does
    not exist, cannot be opened or is a directory, [encode_image_file]
    raises the I/O error without catching it.  When [query_llm] has a
    client (one is passed, or the credential is set), it catches the
    error: it reports it on stderr, sends nothing and returns [None], and
    [main] ends through [sys.exit(1)].  When it has none, the
    configuration error is raised first and the attachment is not looked
    at. *)
Theorem attachment_error_absorbed (prompt : string) (client : option Client)
    (model : option string) (path : string) (w : world) :
  path ≠ EmptyString →
  fs w !! path = None ∨ fs w !! path = Some Unreadable
  ∨ fs w !! path = Some Directory →
  ∃ e,
    (e = FileNotFoundError path ∨ e = PermissionError path
     ∨ e = IsADirectoryError path)
    ∧ encode_image_file path w = (Raise e, w)
    ∧ match resolved_client client w with
      | Some _ =>
          query_llm prompt client model (Some path) w =
            (Ok None, add_stderr (DQueryError e) w)
          ∧ sent_by (query_llm prompt client model (Some path)) w = []
      | None =>
          query_llm prompt client model (Some path) w =
            (Raise missing_credential, w)
      end
    ∧ match resolved_client None w with
      | Some _ =>
          main (Args prompt model (Some path)) w =
            (Raise (SystemExit 1), add_stderr (DQueryError e) w)
      | None =>
          main (Args prompt model (Some path)) w = (Raise missing_credential, w)
      end.
Proof.
  intros Hpath Hfile.
  assert (∃ e, (e = FileNotFoundError path ∨ e = PermissionError path
                ∨ e = IsADirectoryError path)
               ∧ encode_image_file path w = (Raise e, w)
               ∧ attachment_blocks (Some path) w = Raise e) as (e & He & Henc & Hb).
  { unfold attachment_blocks. rewrite encode_image_file_run.
    destruct path as [|a p]; [done|].
    destruct Hfile as [-> | [-> | ->]]; eexists; eauto. }
  assert (∀ cl, match resolved_client cl w with
                | Some _ =>
                    query_llm prompt cl model (Some path) w =
                      (Ok None, add_stderr (DQueryError e) w)
                | None =>
                    query_llm prompt cl model (Some path) w =
                      (Raise missing_credential, w)
                end) as Hrun.
  { intros [c'|]; cbn [resolved_client].
    - by rewrite query_llm_with_client, Hb.
    - rewrite query_llm_no_client.
      destruct (environ w !! "OPENAI_API_KEY") as [[|a key]|]; try done.
      by rewrite query_llm_with_client, Hb. }
  exists e. split; [done|]. split; [done|]. split.
  - specialize (Hrun client). destruct (resolved_client client w); [|done].
    split; [done|]. unfold sent_by. rewrite Hrun. cbn. by rewrite drop_all.
  - specialize (Hrun None). rewrite main_run. cbn [arg_prompt arg_model arg_image].
    destruct (resolved_client None w); by rewrite Hrun.
Qed.

(** C9, as the code has it.  The key listing of a text never raises and
    consists of the text before the first [=], with surrounding
    whitespace removed, of every line that contains [=] and does not start
    with [#]; lines without [=] and lines starting with [#] contribute
    nothing.  When every candidate file that is there can be opened and
    decoded, [load_environment] returns and has reported exactly that
    listing, taken from the decoded text, for each file present. *)
Theorem key_listing_stripped (w : world) :
  candidates_loadable w = true →
  (∀ t : text,
     keys_comprehension (file_lines t) =
     Ok ((λ line, strip (before_first "=" line)) <$>
           List.filter (λ line, contains_char "=" line
                                && negb (startswith_char "#" line))
             (file_lines t)))
  ∧ ∃ w',
      load_environment w = (Ok tt, w')
      ∧ ∀ f content decoded,
          f ∈ env_files → fs w !! f = Some (Readable content) →
          locale_decode content = Some decoded →
          DKeys f (stripped_keys (universal_newlines decoded)) ∈ stderr w'.
Proof.
  intros Hok. split; [intros t; apply keys_comprehension_stripped|].
  destruct (load_environment_run w Hok) as [tail Hrun].
  eexists. split; [exact Hrun|]. intros f content decoded Hf Hfile Hdec.
  cbn [stderr]. rewrite !elem_of_app. right. right. left.
  pose proof (each_log_keys env_files (fs w) f content Hf Hfile) as Hin.
  unfold listing in Hin. by rewrite Hdec in Hin.
Qed.


(** ** Further properties *)

Lemma grows_refl w : grows w w.
Proof. by repeat split. Qed.

Lemma grows_trans w1 w2 w3 : grows w1 w2 → grows w2 w3 → grows w1 w3.
Proof.
  intros (Hf & Ho & Hr & He & Hs) (Hf' & Ho' & Hr' & He' & Hs').
  repeat split; try congruence; by etrans.
Qed.

Lemma grows_add_stderr d w : grows w (add_stderr d w).
Proof. repeat split; try done. by apply prefix_app_r. Qed.

Lemma grows_after_load_dotenv f w : grows w (after_load_dotenv f w).
Proof.
  destruct w as [env files err out reqs]. unfold after_load_dotenv. run.
  repeat split; try done.
  - apply map_union_subseteq_l.
  - rewrite <- !app_assoc. by apply prefix_app_r.
Qed.

Lemma grows_after_candidate f content w : grows w (after_candidate f content w).
Proof.
  eapply grows_trans; [apply (grows_after_load_dotenv f)|].
  apply grows_add_stderr.
Qed.

(** Whatever the files are, the loop only adds names and stderr lines,
    and when it fails, it fails on a candidate that is there. *)
Lemma load_each_grows names : ∀ loaded w,
  grows w (load_each names loaded w).2
  ∧ ((∃ loaded', (load_each names loaded w).1 = Ok loaded')
     ∨ ∃ f e, f ∈ names ∧ load_failure (fs w) f e
              ∧ (load_each names loaded w).1 = Raise e).
Proof.
  induction names as [|f rest IH]; intros loaded w.
  - split; [apply grows_refl|]. left. by eexists.
  - rewrite load_each_cons. unfold load_failure.
    destruct (fs w !! f) as [[content| |]|] eqn:Hfile.
    + destruct (utf8_decode content) as [t8|] eqn:H8;
        [destruct (locale_decode content) as [tl|] eqn:Hl|].
      * destruct (IH true (after_candidate f content w)) as [Hg Hr].
        pose proof (grows_after_candidate f content w) as Hg0.
        split; [by eapply grows_trans|].
        destruct Hr as [?|(g & e & Hin & Hg' & Hr)]; [by left|].
        right. exists g, e. split; [by apply list_elem_of_further|].
        destruct Hg0 as [Hfs _]. by rewrite <- Hfs.
      * split; [apply grows_after_load_dotenv|].
        right. exists f, UnicodeDecodeError.
        split; [apply list_elem_of_here|]. split; [|done].
        right. right. rewrite Hfile. eauto.
      * split; [eapply grows_trans; apply grows_add_stderr|].
        right. exists f, UnicodeDecodeError.
        split; [apply list_elem_of_here|]. split; [|done].
        right. right. rewrite Hfile. eauto.
    + split; [eapply grows_trans; apply grows_add_stderr|].
      right. exists f, (PermissionError f).
      split; [apply list_elem_of_here|]. rewrite Hfile. split; [|done]. by left.
    + split; [apply grows_after_load_dotenv|].
      right. exists f, (IsADirectoryError f).
      split; [apply list_elem_of_here|]. rewrite Hfile. split; [|done].
      right. by left.
    + destruct (IH loaded (add_stderr (DChecking cwd f) w)) as [Hg Hr].
      split; [eapply grows_trans; [apply grows_add_stderr|done]|].
      destruct Hr as [?|(g & e & Hin & Hg' & Hr)]; [by left|].
      right. exists g, e. split; [by apply list_elem_of_further|done].
Qed.

Lemma load_environment_unfold w :
  load_environment w =
  match load_each env_files false
          (add_stderr (DLooking env_files) (add_stderr (DCwd cwd) w)) with
  | (Ok true, w1) => (Ok tt, w1)
  | (Ok false, w1) =>
      (Ok tt, add_stderr (DSystemVars (map_to_list (environ w1)).*1)
                (add_stderr DNoEnvFiles w1))
  | (Raise e, w1) => (Raise e, w1)
  end.
Proof.
  unfold load_environment, bind, eprint, modify, gets, ret.
  by destruct (load_each _ _ _) as [[[|]|e] w1].
Qed.

Lemma load_environment_grows w :
  grows w (load_environment w).2
  ∧ ((load_environment w).1 = Ok tt
     ∨ ∃ f e, f ∈ env_files ∧ load_failure (fs w) f e
              ∧ (load_environment w).1 = Raise e).
Proof.
  rewrite load_environment_unfold.
  set (w0 := add_stderr (DLooking env_files) (add_stderr (DCwd cwd) w)).
  assert (grows w w0) as Hw0
    by (eapply grows_trans; apply grows_add_stderr).
  destruct (load_each_grows env_files false w0) as [Hg Hr].
  destruct (load_each env_files false w0) as [[b|e] w1]; cbn [fst snd] in *.
  - destruct b; cbn [fst snd].
    + split; [by eapply grows_trans|by left].
    + split; [|by left].
      eapply grows_trans; [exact Hw0|]. eapply grows_trans; [exact Hg|].
      eapply grows_trans; [apply (grows_add_stderr DNoEnvFiles)|].
      apply grows_add_stderr.
  - split; [by eapply grows_trans|]. right.
    destruct Hr as [[? ?]|(f & e' & Hin & Hf & He)]; [done|].
    exists f, e'. by simplify_eq.
Qed.

(** The flag the loop returns: set on entry, or some candidate is there. *)
Lemma load_each_loaded names : ∀ loaded w loaded' w',
  load_each names loaded w = (Ok loaded', w') →
  loaded' = loaded || existsb (λ f, bool_decide (is_Some (fs w !! f))) names.
Proof.
  induction names as [|f rest IH]; intros loaded w loaded' w'.
  - intros [= <- _]. cbn. by rewrite orb_false_r.
  - rewrite load_each_cons. cbn [existsb].
    destruct (fs w !! f) as [[content| |]|] eqn:Hfile; [| done | done |].
    + destruct (utf8_decode content); [|done].
      destruct (locale_decode content); [|done].
      intros Hrun. apply IH in Hrun as ->.
      rewrite bool_decide_eq_true_2 by eauto. cbn. by rewrite orb_true_r.
    + intros Hrun. apply IH in Hrun as ->.
      rewrite bool_decide_eq_false_2 by (intros [? ?]; done). done.
Qed.

(** The loop over a list in two parts. *)
Lemma load_each_app pre rest : ∀ loaded w,
  load_each (pre ++ rest) loaded w =
  bind (load_each pre loaded) (λ b, load_each rest b) w.
Proof.
  induction pre as [|f pre IH]; intros loaded w; [done|].
  cbn [app]. rewrite load_each_cons. unfold bind.
  rewrite load_each_cons.
  destruct (fs w !! f) as [[content| |]|]; [|done|done|]; [|by rewrite IH].
  destruct (utf8_decode content); [|done].
  destruct (locale_decode content); [|done]. by rewrite IH.
Qed.

Lemma fs_after_load_dotenv f w : fs (after_load_dotenv f w) = fs w.
Proof. done. Qed.

Lemma stderr_after_load_dotenv f w :
  stderr (after_load_dotenv f w)
  = (stderr w ++ [DChecking cwd f; DFound f; DLoaded f])%list.
Proof. cbn. by rewrite <- !app_assoc. Qed.

Lemma stderr_after_candidate f content w :
  stderr (after_candidate f content w)
  = (stderr w ++ [DChecking cwd f; DFound f; DLoaded f; DKeys f (listing content)])%list.
Proof. cbn. by rewrite <- !app_assoc. Qed.

(** Whatever the files are, the loop writes only its own four kinds of
    line. *)
Lemma load_each_lines names : ∀ loaded w,
  ∃ log, stderr (load_each names loaded w).2 = (stderr w ++ log)%list
         ∧ forallb is_loop_line log = true.
Proof.
  induction names as [|f rest IH]; intros loaded w.
  - exists []. by rewrite app_nil_r.
  - rewrite load_each_cons.
    destruct (fs w !! f) as [[content| |]|].
    + destruct (utf8_decode content);
        [destruct (locale_decode content)|].
      * destruct (IH true (after_candidate f content w)) as (log & -> & Hlog).
        rewrite stderr_after_candidate, <- app_assoc.
        eexists. split; [done|]. cbn. by rewrite Hlog.
      * cbn [snd]. rewrite stderr_after_load_dotenv. by eexists.
      * exists [DChecking cwd f; DFound f]. cbn. by rewrite <- app_assoc.
    + exists [DChecking cwd f; DFound f]. cbn. by rewrite <- app_assoc.
    + cbn [snd]. rewrite stderr_after_load_dotenv. by eexists.
    + destruct (IH loaded (add_stderr (DChecking cwd f) w)) as (log & -> & Hlog).
      cbn [add_stderr stderr]. rewrite <- app_assoc. eexists. split; [done|].
      cbn. by rewrite Hlog.
Qed.


Lemma each_log_only names files d :
  d ∈ each_log names files →
  match d with
  | DChecking _ f | DFound f | DLoaded f | DKeys f _ => f ∈ names
  | _ => False
  end.
Proof.
  induction names as [|f rest IH]; cbn [each_log]; [by intros ?%elem_of_nil|].
  intros [->|Hin]%elem_of_cons; [apply list_elem_of_here|].
  apply elem_of_app in Hin as [Hin|Hin].
  - destruct (files !! f) as [[content| |]|]; try by apply elem_of_nil in Hin.
    repeat apply elem_of_cons in Hin as [->|Hin];
      try apply list_elem_of_here. by apply elem_of_nil in Hin.
  - apply IH in Hin. destruct d; try done; by apply list_elem_of_further.
Qed.

Lemma each_log_checking names files :
  List.filter is_checking (each_log names files) = DChecking cwd <$> names.
Proof.
  induction names as [|f rest IH]; [done|].
  cbn [each_log List.filter is_checking fmap list_fmap].
  rewrite List.filter_app, IH. f_equal.
  by destruct (files !! f) as [[content| |]|].
Qed.

Lemma no_candidate_lookup w f :
  any_candidate w = false → f ∈ env_files → fs w !! f = None.
Proof.
  unfold any_candidate. intros Hnone Hin.
  destruct (fs w !! f) as [entry|] eqn:Hf; [|done].
  assert (existsb (λ f, bool_decide (is_Some (fs w !! f))) env_files = true)
    as Hsome; [|congruence].
  apply existsb_exists. exists f. split; [by apply list_elem_of_In|].
  apply bool_decide_eq_true_2. by rewrite Hf.
Qed.

Lemma no_candidate_loadable w :
  any_candidate w = false → candidates_loadable w = true.
Proof.
  intros Hnone. unfold candidates_loadable, loadable, env_files. cbn [forallb].
  by rewrite !(no_candidate_lookup w) by (first [done | repeat constructor]).
Qed.

(** What [load_environment] writes to stderr when every candidate is
    loadable. *)
Lemma load_environment_reported w :
  candidates_loadable w = true →
  reported_by load_environment w =
  ([DCwd cwd; DLooking env_files] ++ each_log env_files (fs w)
   ++ (if any_candidate w then []
       else [DNoEnvFiles; DSystemVars (map_to_list (environ w)).*1]))%list
  ∧ (any_candidate w = false → environ (load_environment w).2 = environ w).
Proof.
  destruct w as [env files err out reqs]. intros Hok.
  unfold reported_by, load_environment. run.
  destruct (load_each_run env_files false
              (World env files ((err ++ [DCwd cwd]) ++ [DLooking env_files])
                     out reqs) Hok) as (b & Hrun & Hb).
  pose proof (load_each_loaded _ _ _ _ _ Hrun) as ->.
  cbn [environ fs stderr stdout requests orb] in Hrun, Hb. rewrite Hrun.
  unfold any_candidate. cbn [fs].
  destruct (existsb _ env_files); cbn [negb]; run; cbn [snd stderr environ].
  - split; [|done]. rewrite <- !app_assoc, drop_app_length.
    cbn [app]. by rewrite app_nil_r.
  - destruct Hb as [_ Henv]; [done|]. rewrite Henv. split; [|done].
    rewrite <- !app_assoc, drop_app_length. by cbn [app].
Qed.

(** The run of [load_environment] in three parts, whatever the files
    are: the two header lines, the lines of the loop, and the warning
    with the variable names when the loop returns with its flag unset. *)
Lemma load_environment_parts w :
  ∃ log,
    forallb is_loop_line log = true
    ∧ reported_by load_environment w =
      ([DCwd cwd; DLooking env_files] ++ log
       ++ match (load_each env_files false
                   (add_stderr (DLooking env_files) (add_stderr (DCwd cwd) w))).1 with
          | Ok false =>
              [DNoEnvFiles;
               DSystemVars
                 (map_to_list
                    (environ (load_each env_files false
                                (add_stderr (DLooking env_files)
                                   (add_stderr (DCwd cwd) w))).2)).*1]
          | _ => []
          end)%list.
Proof.
  unfold reported_by. rewrite load_environment_unfold.
  set (w0 := add_stderr (DLooking env_files) (add_stderr (DCwd cwd) w)).
  destruct (load_each_lines env_files false w0) as (log & Hlog & Hkinds).
  exists log. split; [done|].
  assert (stderr w0 = (stderr w ++ [DCwd cwd; DLooking env_files])%list) as Hw0
    by (unfold w0; cbn; by rewrite <- app_assoc).
  rewrite Hw0 in Hlog.
  destruct (load_each env_files false w0) as [[[|]|e] w1]; cbn [fst snd] in *.
  - rewrite Hlog, <- !app_assoc, drop_app_length. by rewrite app_nil_r.
  - cbn [add_stderr stderr]. by rewrite Hlog, <- !app_assoc, drop_app_length.
  - rewrite Hlog, <- !app_assoc, drop_app_length. by rewrite app_nil_r.
Qed.

(** The warning is written exactly when no candidate is there, whatever
    the candidates are. *)
Lemma load_environment_warns w :
  DNoEnvFiles ∈ reported_by load_environment w ↔ any_candidate w = false.
Proof.
  destruct (load_environment_parts w) as (log & Hkinds & ->).
  set (w0 := add_stderr (DLooking env_files) (add_stderr (DCwd cwd) w)).
  assert (DNoEnvFiles ∉ ([DCwd cwd; DLooking env_files] ++ log)%list) as Hnot.
  { intros [Hin|Hin]%elem_of_app.
    - repeat apply elem_of_cons in Hin as [?|Hin]; try done.
      by apply elem_of_nil in Hin.
    - apply list_elem_of_In in Hin.
      by apply (proj1 (forallb_forall _ _) Hkinds) in Hin. }
  destruct (load_each_grows env_files false w0) as [_ Hres].
  destruct (load_each env_files false w0) as [[b|e] w1] eqn:Hrun; cbn [fst snd] in *.
  - pose proof (load_each_loaded _ _ _ _ _ Hrun) as Hb. cbn [orb] in Hb.
    change (existsb _ env_files) with (any_candidate w) in Hb. subst b.
    destruct (any_candidate w).
    + rewrite app_nil_r. split; [done|done].
    + split; [done|]. intros _. rewrite app_assoc. apply elem_of_app. right.
      apply list_elem_of_here.
  - destruct Hres as [[? ?]|(f & e' & Hin & Hfail & _)]; [done|].
    assert (any_candidate w = true) as ->.
    { apply existsb_exists. exists f. split; [by apply list_elem_of_In|].
      apply bool_decide_eq_true_2.
      destruct Hfail as [[Hf _]|[[Hf _]|(c & Hf & _)]];
        change (fs w0) with (fs w) in Hf; by rewrite Hf. }
    rewrite app_nil_r. split; [done|done].
Qed.

Lemma source_dom_fixed env env' files f :
  names_fixed → dom (source env files f) = dom (source env' files f).
Proof.
  intros Hfixed. unfold source.
  destruct (files !! f) as [[content| |]|]; [|done..].
  destruct (utf8_decode content); [apply Hfixed|done].
Qed.

Lemma resolve_dom_mono names files : ∀ env,
  dom env ⊆ dom (resolve names files env).
Proof.
  induction names as [|f rest IH]; intros env; [done|].
  cbn [resolve]. etrans; [|apply IH]. rewrite dom_union_L.
  apply union_subseteq_l.
Qed.

Lemma resolve_covers names files : names_fixed → ∀ env env' f,
  f ∈ names → dom (source env' files f) ⊆ dom (resolve names files env).
Proof.
  intros Hfixed. induction names as [|g rest IH]; intros env env' f Hin;
    [by apply elem_of_nil in Hin|].
  cbn [resolve]. apply elem_of_cons in Hin as [->|Hin]; [|by apply IH].
  etrans; [|apply resolve_dom_mono].
  rewrite dom_union_L, (source_dom_fixed env' env) by done.
  apply union_subseteq_r.
Qed.

Lemma resolve_fixed names files env :
  (∀ f, f ∈ names → dom (source env files f) ⊆ dom env) →
  resolve names files env = env.
Proof.
  induction names as [|f rest IH]; intros Hdom; [done|].
  cbn [resolve].
  assert (env ∪ source env files f = env) as ->.
  { apply map_eq. intros k. rewrite lookup_union.
    destruct (env !! k) as [v|] eqn:Hk; [by destruct (source env files f !! k)|].
    assert (source env files f !! k = None) as ->; [|done].
    apply not_elem_of_dom. intros Hin.
    apply (Hdom f (list_elem_of_here _ _)) in Hin.
    by apply not_elem_of_dom in Hk. }
  apply IH. intros g Hg. apply Hdom. by apply list_elem_of_further.
Qed.

(** X1.  Whatever the files are and however it ends, [load_environment]
    leaves the files, stdout and the requests as they were, keeps every
    variable of the environment with its value, and only appends to
    stderr; it either returns or raises on a candidate that is there:
    the permission error of one that cannot be opened, the directory
    error of one that is a directory, or the decoding error of one whose
    bytes UTF-8 or the locale's codec rejects. *)
Theorem load_environment_only_adds (w : world) :
  fs (load_environment w).2 = fs w
  ∧ stdout (load_environment w).2 = stdout w
  ∧ requests (load_environment w).2 = requests w
  ∧ environ w ⊆ environ (load_environment w).2
  ∧ stderr w `prefix_of` stderr (load_environment w).2
  ∧ ((load_environment w).1 = Ok tt
     ∨ ∃ f, f ∈ env_files
         ∧ ((fs w !! f = Some Unreadable
             ∧ (load_environment w).1 = Raise (PermissionError f))
            ∨ (fs w !! f = Some Directory
               ∧ (load_environment w).1 = Raise (IsADirectoryError f))
            ∨ (∃ content, fs w !! f = Some (Readable content)
                 ∧ (utf8_decode content = None ∨ locale_decode content = None)
                 ∧ (load_environment w).1 = Raise UnicodeDecodeError))).
Proof.
  destruct (load_environment_grows w) as [(Hf & Ho & Hr & He & Hs) Hres].
  repeat (split; [done|]).
  destruct Hres as [?|(f & e & Hin & Hfail & Hraise)]; [by left|].
  right. exists f. split; [done|].
  destruct Hfail as [[? ->]|[[? ->]|(content & ? & ? & ->)]]; eauto 8.
Qed.

(** X2.  A candidate that is there but cannot be opened stops the script
    at import time: when the candidates before it are loadable,
    [load_environment] raises the permission error naming it, the
    candidates before it have been loaded and the ones after it have
    not, and the script ends with status 1 without sending a request or
    printing to stdout. *)
Theorem unopenable_candidate_aborts (pre post : list string) (f : string)
    (a : args) (w : world) :
  env_files = (pre ++ f :: post)%list →
  forallb (loadable (fs w)) pre = true →
  fs w !! f = Some Unreadable →
  (load_environment w).1 = Raise (PermissionError f)
  ∧ environ (load_environment w).2 = resolve pre (fs w) (environ w)
  ∧ (script a w).1 = Raise (PermissionError f)
  ∧ sent_by (script a) w = []
  ∧ stdout (script a w).2 = stdout w
  ∧ exit_status (script a w).1 = 1.
Proof.
  intros Hfiles Hpre Hf.
  assert (∃ log, load_environment w =
            (Raise (PermissionError f),
             World (resolve pre (fs w) (environ w)) (fs w) (stderr w ++ log)
                   (stdout w) (requests w))) as [log Hrun].
  { rewrite load_environment_unfold, Hfiles, load_each_app. unfold bind.
    destruct w as [env files err out reqs]. unfold add_stderr.
    cbn [environ fs stderr stdout requests] in *.
    destruct (load_each_run pre false
                (World env files ((err ++ [DCwd cwd]) ++ [DLooking (pre ++ f :: post)])
                       out reqs) Hpre) as (b & -> & _).
    cbn [environ fs stderr stdout requests].
    rewrite load_each_cons. cbn [fs]. rewrite Hf. unfold add_stderr.
    cbn [environ fs stderr stdout requests].
    eexists. f_equal. f_equal. rewrite <- !app_assoc. reflexivity. }
  unfold sent_by, script, bind. rewrite Hrun. cbn [fst snd environ stdout requests].
  by rewrite drop_all.
Qed.

(** X3.  When every candidate that is there can be opened, the warning
    that no .env file was found is reported exactly when none of the
    three candidates exists; in that case the environment is left exactly
    as it was and stderr gains the two header lines, one line per
    candidate checked, the warning and the list of variable names. *)
Theorem no_env_files_warning (w : world) :
  candidates_readable w = true →
  (DNoEnvFiles ∈ reported_by load_environment w ↔ any_candidate w = false)
  ∧ (any_candidate w = false →
     environ (load_environment w).2 = environ w
     ∧ reported_by load_environment w =
       [DCwd cwd; DLooking env_files;
        DChecking cwd ".env.local"; DChecking cwd ".env";
        DChecking cwd ".env.example";
        DNoEnvFiles; DSystemVars (map_to_list (environ w)).*1]).
Proof.
  intros _. split; [apply load_environment_warns|].
  intros Hnone.
  destruct (load_environment_reported w (no_candidate_loadable w Hnone))
    as [Hlog Henv].
  split; [by apply Henv|]. rewrite Hlog, Hnone.
  unfold env_files. cbn [each_log].
  rewrite !(no_candidate_lookup w) by (first [done | repeat constructor]).
  done.
Qed.

(** X4.  The search does not stop at the first file found: when every
    candidate is loadable (absent, or a file that can be opened and
    decoded), each of the three candidates is checked, once, in the
    order .env.local, .env, .env.example. *)
Theorem all_candidates_checked (w : world) :
  candidates_loadable w = true →
  List.filter is_checking (reported_by load_environment w) =
  [DChecking cwd ".env.local"; DChecking cwd ".env"; DChecking cwd ".env.example"].
Proof.
  intros Hok. destruct (load_environment_reported w Hok) as [-> _].
  rewrite !List.filter_app, each_log_checking.
  by destruct (any_candidate w).
Qed.


(** X6.  Loading twice changes nothing more: when every candidate is
    loadable and the names a file defines do not depend on the
    environment it is parsed in, a second [load_environment] returns
    and leaves the environment as the first one left it. *)
Theorem load_environment_idempotent (w : world) :
  candidates_loadable w = true →
  names_fixed →
  (load_environment (load_environment w).2).1 = Ok tt
  ∧ environ (load_environment (load_environment w).2).2
    = environ (load_environment w).2.
Proof.
  intros Hok Hfixed.
  destruct (load_environment_run w Hok) as [tail ->]. cbn [snd].
  match goal with |- context [load_environment ?w1] =>
    destruct (load_environment_run w1 Hok) as [tail' ->] end.
  cbn [fst snd environ fs]. split; [done|].
  apply resolve_fixed. intros f Hf. by apply resolve_covers.
Qed.

Lemma before_first_free (c : N) (s : text) :
  contains_char c (before_first c s) = false.
Proof.
  induction s as [|d s IH]; [done|]. cbn [before_first].
  destruct (N.eqb d c) eqn:Hd; [done|]. cbn [contains_char]. by rewrite Hd.
Qed.

Lemma lstrip_free (c : N) (s : text) :
  contains_char c s = false → contains_char c (lstrip s) = false.
Proof.
  induction s as [|d s IH]; [done|]. cbn [lstrip contains_char].
  destruct (is_space d); [|done].
  destruct (N.eqb d c); [done|]. apply IH.
Qed.

Lemma rstrip_free (c : N) (s : text) :
  contains_char c s = false → contains_char c (rstrip s) = false.
Proof.
  induction s as [|d s IH]; [done|]. cbn [rstrip contains_char].
  destruct (N.eqb d c) eqn:Hd; [done|]. intros Hs. specialize (IH Hs).
  destruct (rstrip s) as [|e r].
  - destruct (is_space d); cbn [contains_char]; by rewrite ?Hd.
  - cbn [contains_char]. by rewrite Hd.
Qed.

Lemma rstrip_rstrip (s : text) : rstrip (rstrip s) = rstrip s.
Proof.
  induction s as [|d s IH]; [done|]. cbn [rstrip].
  destruct (rstrip s) as [|e r] eqn:Hr.
  - destruct (is_space d) eqn:Hd; [done|]. cbn [rstrip]. by rewrite Hd.
  - cbn [rstrip]. cbn [rstrip] in IH. by rewrite IH.
Qed.

Lemma lstrip_head (s : text) :
  lstrip s = [] ∨ ∃ c t, lstrip s = c :: t ∧ is_space c = false.
Proof.
  induction s as [|d s IH]; [by left|]. cbn [lstrip].
  destruct (is_space d) eqn:Hd; [done|]. right. by exists d, s.
Qed.

Lemma lstrip_strip (s : text) : lstrip (strip s) = strip s.
Proof.
  unfold strip. destruct (lstrip_head s) as [->|(c & t & -> & Hc)]; [done|].
  cbn [rstrip]. destruct (rstrip t); rewrite ?Hc; cbn [lstrip]; by rewrite Hc.
Qed.

(** X7.  The key listing never raises and gives at most one key per
    line; no key contains an [=] (so nothing of a line from its first [=]
    on, where the value is, reaches the listing) and no key has leading
    or trailing whitespace. *)
Theorem listed_keys_clean (lines : list text) :
  ∃ keys,
    keys_comprehension lines = Ok keys
    ∧ (length keys ≤ length lines)%nat
    ∧ Forall (λ key, contains_char "=" key = false
                     ∧ lstrip key = key ∧ rstrip key = key) keys.
Proof.
  rewrite keys_comprehension_stripped. eexists. split; [done|].
  induction lines as [|line rest [Hlen Hall]]; [by split; [|constructor]|].
  cbn [List.filter]. destruct (listed line); cbn [fmap list_fmap length].
  - split; [lia|]. constructor; [|done]. split; [|split].
    + apply rstrip_free, lstrip_free, before_first_free.
    + apply lstrip_strip.
    + apply rstrip_rstrip.
  - split; [lia|done].
Qed.

(** X8.  An attachment path that is the empty string is no attachment:
    [query_llm], and [main] with it, do exactly what they do when no
    path is given, without trying to open a file. *)
Theorem empty_image_path_ignored (prompt : string) (client : option Client)
    (model : option string) (w : world) :
  query_llm prompt client model (Some EmptyString) w
  = query_llm prompt client model None w
  ∧ main (Args prompt model (Some EmptyString)) w
    = main (Args prompt model None) w.
Proof.
  assert (∀ cl, query_llm prompt cl model (Some EmptyString) w
                = query_llm prompt cl model None w) as Hq.
  { intros [c|].
    - by rewrite !query_llm_with_client.
    - rewrite !query_llm_no_client.
      by destruct (environ w !! "OPENAI_API_KEY") as [[|x key]|]. }
  split; [apply Hq|]. rewrite !main_run. cbn [arg_prompt arg_model arg_image].
  by rewrite Hq.
Qed.

(** Everything one call of [query_llm] can do to the world. *)
Lemma query_llm_world prompt client model image_path w :
  ∃ sent log,
    (query_llm prompt client model image_path w).2 =
      World (environ w) (fs w) (stderr w ++ log) (stdout w) (requests w ++ sent)
    ∧ (length sent ≤ 1)%nat
    ∧ (log = []
       ∨ ∃ e, log = [DQueryError e]
              ∧ (query_llm prompt client model image_path w).1 = Ok None).
Proof.
  destruct w as [env files err out reqs].
  assert (∀ c, ∃ sent log,
    (query_llm prompt (Some c) model image_path (World env files err out reqs)).2 =
      World env files (err ++ log) out (reqs ++ sent)
    ∧ (length sent ≤ 1)%nat
    ∧ (log = []
       ∨ ∃ e, log = [DQueryError e]
              ∧ (query_llm prompt (Some c) model image_path
                   (World env files err out reqs)).1 = Ok None)) as Hc.
  { intros c. rewrite query_llm_with_client.
    destruct (attachment_blocks _ _) as [blocks|e].
    - destruct (build_kwargs_ok (default "gpt-4o" model)
                  [user_message (text_block prompt :: blocks)]) as (kw & -> & _).
      unfold outcome. run.
      destruct (c kw) as [[[|content rest]]|e].
      + exists [kw], [DQueryError IndexError]. split; [done|]. split; [done|]. eauto.
      + exists [kw], []. rewrite app_nil_r. split; [done|]. split; [done|]. by left.
      + destruct (is_Exception e).
        * exists [kw], [DQueryError e]. split; [done|]. split; [done|]. eauto.
        * exists [kw], []. rewrite app_nil_r. split; [done|]. split; [done|]. by left.
    - exists [], [DQueryError e]. rewrite app_nil_r. run.
      split; [done|]. split; [cbn; lia|]. eauto. }
  destruct client as [c|]; [apply Hc|].
  rewrite query_llm_no_client. cbn [environ].
  destruct (env !! "OPENAI_API_KEY") as [[|x key]|]; try apply Hc;
    exists [], []; rewrite !app_nil_r; (split; [done|]); (split; [cbn; lia|]);
    by left.
Qed.

Lemma sent_by_cases prompt client model image_path w :
  sent_by (query_llm prompt client model image_path) w = []
  ∨ ∃ blocks kw,
      attachment_blocks image_path w = Ok blocks
      ∧ build_kwargs (default "gpt-4o" model)
          [user_message (text_block prompt :: blocks)] = Ok kw
      ∧ sent_by (query_llm prompt client model image_path) w = [kw].
Proof.
  assert (∀ c,
    sent_by (query_llm prompt (Some c) model image_path) w = []
    ∨ ∃ blocks kw,
        attachment_blocks image_path w = Ok blocks
        ∧ build_kwargs (default "gpt-4o" model)
            [user_message (text_block prompt :: blocks)] = Ok kw
        ∧ sent_by (query_llm prompt (Some c) model image_path) w = [kw]) as Hc.
  { intros c. rewrite sent_by_query_llm.
    destruct (attachment_blocks image_path w) as [blocks|e]; [|by left].
    destruct (build_kwargs _ _) as [kw|e] eqn:Hkw; [|by left].
    right. by exists blocks, kw. }
  destruct client as [c|]; [apply Hc|].
  rewrite sent_by_query_llm_no_client.
  destruct (resolved_client None w); [apply Hc|by left].
Qed.

Lemma build_kwargs_dom model messages kw :
  build_kwargs model messages = Ok kw →
  dom kw = if String.eqb model "o1"
           then {["model"; "messages"; "response_format"; "reasoning_effort"]}
           else {["model"; "messages"; "temperature"]}.
Proof.
  unfold build_kwargs, py_del. destruct (String.eqb model "o1").
  - rewrite bool_decide_eq_true_2 by (eexists; by simplify_map_eq).
    intros [= <-]. reflexivity.
  - intros [= <-]. reflexivity.
Qed.

Lemma outcome_set_environ c kw w env' :
  outcome c kw (set_environ (λ _, env') w)
  = ((outcome c kw w).1, set_environ (λ _, env') (outcome c kw w).2).
Proof.
  unfold outcome. destruct (c kw) as [[[|content rest]]|e]; try done.
  by destruct (is_Exception e).
Qed.

(** X9.  A client that is passed in is used as it is: the outcome of
    [query_llm] and what it does to the world are the same whatever the
    environment holds, the credential included. *)
Theorem supplied_client_ignores_environment (prompt : string) (c : Client)
    (model image_path : option string) (w : world) (env' : gmap string string) :
  query_llm prompt (Some c) model image_path (set_environ (λ _, env') w)
  = ((query_llm prompt (Some c) model image_path w).1,
     set_environ (λ _, env') (query_llm prompt (Some c) model image_path w).2).
Proof.
  rewrite !query_llm_with_client.
  assert (attachment_blocks image_path (set_environ (λ _, env') w)
          = attachment_blocks image_path w) as -> by done.
  destruct (attachment_blocks image_path w) as [blocks|e]; [|done].
  destruct (build_kwargs _ _) as [kw|e]; [|done].
  apply (outcome_set_environ c kw (add_request kw w)).
Qed.

(** X10.  Whatever its arguments and however it ends, one call of
    [query_llm] leaves the environment, the files and stdout untouched,
    hands at most one request to the transport (there is no retry) and
    writes at most one line to stderr; when it writes one, its result is
    [None]. *)
Theorem query_llm_footprint (prompt : string) (client : option Client)
    (model image_path : option string) (w : world) :
  environ (query_llm prompt client model image_path w).2 = environ w
  ∧ fs (query_llm prompt client model image_path w).2 = fs w
  ∧ stdout (query_llm prompt client model image_path w).2 = stdout w
  ∧ (length (sent_by (query_llm prompt client model image_path) w) ≤ 1)%nat
  ∧ (reported_by (query_llm prompt client model image_path) w = []
     ∨ ∃ e, reported_by (query_llm prompt client model image_path) w
            = [DQueryError e]
            ∧ (query_llm prompt client model image_path w).1 = Ok None).
Proof.
  destruct (query_llm_world prompt client model image_path w)
    as (sent & log & Hw & Hsent & Hlog).
  unfold sent_by, reported_by. rewrite Hw. cbn [environ fs stderr stdout requests].
  by rewrite !drop_app_length.
Qed.

(** X11.  What comes back when the transport answers with at least one
    choice is the content of the first choice, as it is (an absent
    content gives [None]); the other choices are ignored, the request
    went out once and nothing is written to stderr. *)
Theorem first_choice_returned (prompt : string) (client : option Client)
    (model image_path : option string) (w : world) (c : Client)
    (blocks : list pyval) (kw : gmap string pyval)
    (content : option string) (others : list (option string)) :
  resolved_client client w = Some c →
  attachment_blocks image_path w = Ok blocks →
  build_kwargs (default "gpt-4o" model)
    [user_message (text_block prompt :: blocks)] = Ok kw →
  c kw = Ok (Response (content :: others)) →
  query_llm prompt client model image_path w = (Ok content, add_request kw w).
Proof.
  intros Hclient Hblocks Hkw Hanswer.
  assert (query_llm prompt (Some c) model image_path w
          = (Ok content, add_request kw w)) as Hrun.
  { rewrite query_llm_with_client, Hblocks, Hkw. unfold outcome.
    by rewrite Hanswer. }
  destruct client as [c'|]; [by simplify_eq/=|].
  rewrite query_llm_no_client. cbn in Hclient.
  destruct (environ w !! "OPENAI_API_KEY") as [[|x key]|]; by simplify_eq.
Qed.

(** X12.  An answer without any choice does not make [query_llm] raise:
    taking the first choice fails inside the [try] block, so the call
    reports the index error on stderr and returns [None]; [main] then
    ends through [sys.exit(1)]. *)
Theorem no_choices_gives_None (prompt : string) (client : option Client)
    (model image_path : option string) (w : world) (c : Client)
    (blocks : list pyval) (kw : gmap string pyval) :
  resolved_client client w = Some c →
  attachment_blocks image_path w = Ok blocks →
  build_kwargs (default "gpt-4o" model)
    [user_message (text_block prompt :: blocks)] = Ok kw →
  c kw = Ok (Response []) →
  query_llm prompt client model image_path w =
    (Ok None, add_stderr (DQueryError IndexError) (add_request kw w))
  ∧ match client with
    | None =>
        main (Args prompt model image_path) w =
          (Raise (SystemExit 1),
           add_stderr (DQueryError IndexError) (add_request kw w))
    | Some _ => True
    end.
Proof.
  intros Hclient Hblocks Hkw Hanswer.
  assert (query_llm prompt (Some c) model image_path w
          = (Ok None, add_stderr (DQueryError IndexError) (add_request kw w)))
    as Hrun.
  { rewrite query_llm_with_client, Hblocks, Hkw. unfold outcome.
    by rewrite Hanswer. }
  assert (query_llm prompt client model image_path w
          = (Ok None, add_stderr (DQueryError IndexError) (add_request kw w)))
    as Hrun'.
  { destruct client as [c'|]; [by simplify_eq/=|].
    rewrite query_llm_no_client. cbn in Hclient.
    destruct (environ w !! "OPENAI_API_KEY") as [[|x key]|]; by simplify_eq. }
  split; [done|]. destruct client; [done|].
  rewrite main_run. cbn [arg_prompt arg_model arg_image]. by rewrite Hrun'.
Qed.

(** X13.  An error of the transport that does not derive from
    [Exception] (an interrupt, an exit request) is not absorbed:
    [query_llm] raises it after the request went out, writes nothing to
    stderr, and [main] lets it through without printing. *)
Theorem non_exception_error_propagates (prompt : string) (client : option Client)
    (model image_path : option string) (w : world) (c : Client)
    (blocks : list pyval) (kw : gmap string pyval) (e : exn) :
  resolved_client client w = Some c →
  attachment_blocks image_path w = Ok blocks →
  build_kwargs (default "gpt-4o" model)
    [user_message (text_block prompt :: blocks)] = Ok kw →
  c kw = Raise e →
  is_Exception e = false →
  query_llm prompt client model image_path w = (Raise e, add_request kw w)
  ∧ match client with
    | None => main (Args prompt model image_path) w = (Raise e, add_request kw w)
    | Some _ => True
    end.
Proof.
  intros Hclient Hblocks Hkw Hfail Hexc.
  assert (query_llm prompt (Some c) model image_path w
          = (Raise e, add_request kw w)) as Hrun.
  { rewrite query_llm_with_client, Hblocks, Hkw. unfold outcome.
    by rewrite Hfail, Hexc. }
  assert (query_llm prompt client model image_path w
          = (Raise e, add_request kw w)) as Hrun'.
  { destruct client as [c'|]; [by simplify_eq/=|].
    rewrite query_llm_no_client. cbn in Hclient.
    destruct (environ w !! "OPENAI_API_KEY") as [[|x key]|]; by simplify_eq. }
  split; [done|]. destruct client; [done|].
  rewrite main_run. cbn [arg_prompt arg_model arg_image]. by rewrite Hrun'.
Qed.

(** Once the command line parses, the script is the script on the
    parsed arguments. *)
Lemma run_script_parsed argv a w :
  parse_args argv = Parsed a → run_script argv w = script a w.
Proof. intros Hparse. unfold run_script, script, run_cli. by rewrite Hparse. Qed.

Lemma main_conclude a w :
  main a w = conclude (query_llm (arg_prompt a) None (arg_model a) (arg_image a) w).
Proof. by rewrite main_run. Qed.

Lemma script_conclude a w key :
  candidates_loadable w = true →
  environ (load_environment w).2 !! "OPENAI_API_KEY" = Some key →
  key ≠ EmptyString →
  script a w =
  conclude (query_llm (arg_prompt a) (Some (OpenAI key)) (arg_model a) (arg_image a)
              (load_environment w).2).
Proof.
  intros Hok Hkey Hne. unfold script, bind.
  destruct (load_environment_run w Hok) as [tail Hrun].
  rewrite Hrun in *. cbn [snd] in *.
  rewrite main_conclude, query_llm_no_client, Hkey.
  by destruct key.
Qed.

(** X14.  What [main] writes to stdout, from its first line.  When the
    parser ends the program itself (the help text, a command line it
    rejects), its lines go to stdout and stderr, [SystemExit] is raised
    with the parser's status and no request is sent.  When the parser
    returns the arguments, the text is printed exactly when [main]
    returns: either it returns, and then stdout gained one entry, the
    non-empty text [query_llm] returned; or it raises, and then stdout is
    as it was. *)
Theorem cli_prints_iff_returns (argv : list string) (w : world) :
  match parse_args argv with
  | ParserExit out err code =>
      run_cli argv w =
        (Raise (SystemExit code),
         World (environ w) (fs w) (stderr w ++ (DArgparse <$> err))
               (stdout w ++ out) (requests w))
      ∧ sent_by (run_cli argv) w = []
  | Parsed a =>
      ((run_cli argv w).1 = Ok tt
       ∧ ∃ text, text ≠ EmptyString
           ∧ (query_llm (arg_prompt a) None (arg_model a) (arg_image a) w).1
             = Ok (Some text)
           ∧ stdout (run_cli argv w).2 = (stdout w ++ [text])%list)
      ∨ ((∃ e, (run_cli argv w).1 = Raise e)
         ∧ stdout (run_cli argv w).2 = stdout w)
  end.
Proof.
  unfold sent_by, run_cli. destruct (parse_args argv) as [a|out err code].
  - rewrite main_conclude.
    destruct (query_llm_world (arg_prompt a) None (arg_model a) (arg_image a) w)
      as (sent & log & Hw & _).
    destruct (query_llm _ _ _ _ w) as [[[[|x text]|]|e] w']; cbn [fst snd] in *;
      subst w'; cbn [conclude fst snd add_stdout stdout]; eauto.
    left. split; [done|]. by exists (String x text).
  - run. split; [done|]. cbn [snd requests]. by rewrite drop_all.
Qed.

(** X15.  A request carries the fields the code sets and no other: every
    payload sent has exactly the keys model, messages and temperature, or,
    for the model "o1", exactly model, messages, response_format and
    reasoning_effort; the credential and the attachment path are not
    among them. *)
Theorem payload_fields (prompt : string) (client : option Client)
    (model image_path : option string) (w : world) :
  Forall (λ kw : gmap string pyval,
            dom kw =
            if String.eqb (match model with Some m => m | None => "gpt-4o" end) "o1"
            then {["model"; "messages"; "response_format"; "reasoning_effort"]}
            else {["model"; "messages"; "temperature"]})
    (sent_by (query_llm prompt client model image_path) w).
Proof.
  destruct (sent_by_cases prompt client model image_path w)
    as [->|(blocks & kw & _ & Hkw & ->)]; [constructor|].
  repeat constructor. apply build_kwargs_dom in Hkw. by destruct model.
Qed.

(** X16.  A credential in the system environment is the one the client
    is built with, whatever the .env files say: when every candidate is
    loadable (absent, or a file that can be opened and decoded), the
    script does what [main] does with
    [query_llm] called on the client bound to the system's value. *)
Theorem system_credential_wins (a : args) (w : world) (key : string) :
  candidates_loadable w = true →
  environ w !! "OPENAI_API_KEY" = Some key →
  key ≠ EmptyString →
  script a w =
  conclude (query_llm (arg_prompt a) (Some (OpenAI key)) (arg_model a) (arg_image a)
              (load_environment w).2).
Proof.
  intros Hok Hkey Hne. apply script_conclude; [done| |done].
  destruct (load_environment_grows w) as [(_ & _ & _ & Henv & _) _].
  by eapply lookup_weaken.
Qed.

(** X17.  A credential that only .env.local gives is picked up: when the
    system environment has none and every candidate is loadable (absent,
    or a file that can be opened and decoded), the client is built with
    the value from .env.local, whatever .env and .env.example say. *)
Theorem local_file_credential_used (a : args) (w : world) (key : string) :
  candidates_loadable w = true →
  environ w !! "OPENAI_API_KEY" = None →
  source (environ w) (fs w) ".env.local" !! "OPENAI_API_KEY" = Some key →
  key ≠ EmptyString →
  script a w =
  conclude (query_llm (arg_prompt a) (Some (OpenAI key)) (arg_model a) (arg_image a)
              (load_environment w).2).
Proof.
  intros Hok Hsys Hlocal Hne. apply script_conclude; [done| |done].
  destruct (load_environment_run w Hok) as [tail ->].
  cbn [snd environ resolve env_files].
  do 2 apply lookup_union_Some_l. by rewrite lookup_union_r.
Qed.

Lemma length_list_ascii_of_string s :
  length (String.list_ascii_of_string s) = String.length s.
Proof. induction s as [|c s IH]; [done|]. cbn. by rewrite IH. Qed.

Lemma b64_groups_length bs :
  String.length (b64_groups bs) = (4 * ((length bs + 2) / 3))%nat.
Proof.
  induction bs as [|a|a b|a b c rest IH] using triples_ind; try done.
  cbn [b64_groups String.length length]. rewrite IH.
  replace (S (S (S (length rest))) + 2)%nat with (1 * 3 + (length rest + 2))%nat by lia.
  rewrite Nat.div_add_l by lia. lia.
Qed.

Lemma b64_digit_in_alphabet n : contains_char (b64_digit n) b64_alphabet = true.
Proof.
  unfold b64_digit. pose proof (Nat.mod_upper_bound n 64 ltac:(lia)) as Hm.
  generalize dependent (n mod 64)%nat. intros m Hm.
  do 64 (destruct m as [|m]; [reflexivity|]). lia.
Qed.

Lemma b64_groups_alphabet bs :
  Forall (λ c : ascii, contains_char c b64_alphabet = true ∨ c = "="%char)
    (String.list_ascii_of_string (b64_groups bs)).
Proof.
  induction bs as [|a|a b|a b c rest IH] using triples_ind;
    cbn [b64_groups String.list_ascii_of_string];
    repeat (constructor; [first [left; apply b64_digit_in_alphabet | by right]|]);
    first [done | constructor].
Qed.

Lemma b64encode_inj bytes1 bytes2 :
  b64encode bytes1 = b64encode bytes2 → bytes1 = bytes2.
Proof.
  intros Heq. apply (f_equal b64decode) in Heq.
  rewrite !b64decode_b64encode in Heq. by simplify_eq.
Qed.

(** X18.  The encoding loses nothing: the payload [encode_image_file]
    returns decodes back to the bytes of the file, so when two calls,
    on whatever paths and with whatever content types, return the same
    payload, the two files hold the same bytes. *)
Theorem encoded_payload_determines_bytes (path1 path2 payload mime1 mime2 : string)
    (w1 w2 w1' w2' : world) :
  encode_image_file path1 w1 = (Ok (payload, mime1), w1') →
  encode_image_file path2 w2 = (Ok (payload, mime2), w2') →
  ∃ bytes, fs w1 !! path1 = Some (Readable bytes)
           ∧ fs w2 !! path2 = Some (Readable bytes)
           ∧ b64decode payload = Some bytes.
Proof.
  rewrite !encode_image_file_run. intros H1 H2.
  destruct (fs w1 !! path1) as [[bytes1| |]|]; try done.
  destruct (fs w2 !! path2) as [[bytes2| |]|]; try done.
  simplify_eq. match goal with H : b64encode _ = b64encode _ |- _ =>
    apply b64encode_inj in H as -> end.
  exists bytes2. split; [done|]. split; [done|]. apply b64decode_b64encode.
Qed.

(** X19.  When [encode_image_file] returns, it has changed nothing, the
    content type it gives is not empty, and the payload for a file of [n]
    bytes has 4 * ceil(n / 3) characters, each a digit of the base64
    alphabet or the padding sign [=]; no bound is put on [n]. *)
Theorem encode_image_file_result (path payload mime : string) (w w' : world) :
  encode_image_file path w = (Ok (payload, mime), w') →
  w' = w
  ∧ mime ≠ EmptyString
  ∧ ∃ bytes,
      fs w !! path = Some (Readable bytes)
      ∧ String.length payload = (4 * ((String.length bytes + 2) / 3))%nat
      ∧ Forall (λ c : ascii, contains_char c b64_alphabet = true ∨ c = "="%char)
          (String.list_ascii_of_string payload).
Proof.
  rewrite encode_image_file_run.
  destruct (fs w !! path) as [[bytes| |]|]; try done. intros [= <- <- <-].
  split; [done|]. split.
  - unfold mime_of. by destruct (guess_type path).1 as [[|x m]|].
  - exists bytes. split; [done|]. unfold b64encode.
    split; [|apply b64_groups_alphabet].
    by rewrite b64_groups_length, length_fmap, length_list_ascii_of_string.
Qed.

(** X20.  Every payload sent, whatever the arguments, carries one
    message, of role user, whose content starts with the text block
    holding the prompt unchanged and continues with at most one block:
    none, or, for a non-empty attachment path whose file can be read,
    the image block whose URL is data:<mime>;base64,<the base64 text of
    the file's bytes>. *)
Theorem one_user_message (prompt : string) (client : option Client)
    (model image_path : option string) (w : world) :
  Forall (λ kw : gmap string pyval,
            ∃ blocks,
              kw !! "messages" =
                Some (PList [PDict [("role", PStr "user");
                                    ("content",
                                     PList (PDict [("type", PStr "text");
                                                   ("text", PStr prompt)]
                                            :: blocks))]])
              ∧ (blocks = []
                 ∨ ∃ path bytes,
                     image_path = Some path ∧ path ≠ EmptyString
                     ∧ fs w !! path = Some (Readable bytes)
                     ∧ blocks =
                       [PDict [("type", PStr "image_url");
                               ("image_url",
                                PDict [("url",
                                        PStr ("data:"
                                              +:+ match (guess_type path).1 with
                                                  | Some (String a m) => String a m
                                                  | _ => "image/png"
                                                  end
                                              +:+ ";base64," +:+ b64encode bytes))])]]))
    (sent_by (query_llm prompt client model image_path) w).
Proof.
  eapply Forall_impl; [apply sent_payloads|].
  intros kw (_ & _ & blocks & Hblocks & Hmsgs). exists blocks. split; [done|].
  unfold attachment_blocks in Hblocks.
  destruct image_path as [[|x p]|]; simplify_eq; [by left| |by left].
  destruct (fs w !! String x p) as [[bytes| |]|] eqn:Hfile; simplify_eq.
  right. by exists (String x p), bytes.
Qed.

End llm_api.

(** ** The claims on concrete runs *)

Lemma load_environment_precedence_witness :
  candidates_loadable utf8_decode sample_world = true
  ∧ ∃ w', load_environment "/w" sample_dotenv_values utf8_decode sample_world
          = (Ok tt, w')
          ∧ environ w' !! "REGION" = Some "eu".
Proof.
  split; [vm_compute; reflexivity|].
  destruct (load_environment_precedence "/w" sample_dotenv_values utf8_decode
              sample_world "REGION") as (w' & Hrun & Hk & _);
    [vm_compute; reflexivity|].
  exists w'. split; [exact Hrun|]. rewrite Hk. vm_compute. reflexivity.
Defined.



Lemma transport_failure_absorbed_witness :
  query_llm sample_guess_type (λ _, failing timeout_error)
    "Hello" None None None keyed_world =
  (Ok None,
   World (environ keyed_world) ∅ [DQueryError timeout_error] [] [hello_payload])
  ∧ exit_status (main sample_guess_type (λ _, failing timeout_error)
                   (Args "Hello" None None) keyed_world).1 = 1.
Proof.
  destruct (transport_failure_absorbed sample_guess_type
              (λ _, failing timeout_error) "Hello" None None None keyed_world
              (failing timeout_error) [] hello_payload timeout_error)
    as (Hrun & _ & _ & _ & Hexit); try reflexivity.
  split; assumption.
Defined.

Lemma missing_credential_raises_witness :
  query_llm sample_guess_type (λ _, answering "Hi there")
    "Hello" None None None bare_world =
  (Raise missing_credential, bare_world).
Proof.
  refine (proj1 (missing_credential_raises sample_guess_type
                   (λ _, answering "Hi there") "Hello" None None bare_world _)).
  reflexivity.
Defined.

(** The attachment cannot be opened: with a client at hand the call
    returns [None]; without one, and without a credential, the
    configuration error comes first. *)
Lemma attachment_error_absorbed_witness :
  ∃ e,
    encode_image_file sample_guess_type "locked.png" sample_world = (Raise e, sample_world)
    ∧ query_llm sample_guess_type answering
        "What is this?" (Some (answering "Hi there")) None (Some "locked.png")
        sample_world =
      (Ok None, add_stderr (DQueryError e) sample_world)
    ∧ sent_by (query_llm sample_guess_type answering
                 "What is this?" (Some (answering "Hi there")) None
                 (Some "locked.png")) sample_world = []
    ∧ main sample_guess_type answering
        (Args "What is this?" None (Some "locked.png")) sample_world
      = (Raise missing_credential, sample_world).
Proof.
  destruct (attachment_error_absorbed sample_guess_type answering
              "What is this?" (Some (answering "Hi there")) None "locked.png"
              sample_world)
    as (e & _ & Henc & Hquery & Hmain);
    [discriminate | right; left; reflexivity |].
  exists e. split; [exact Henc|]. split; [exact (proj1 Hquery)|].
  split; [exact (proj2 Hquery)|exact Hmain].
Defined.

Lemma key_listing_stripped_witness :
  ∃ w', load_environment "/w" sample_dotenv_values utf8_decode sample_world
        = (Ok tt, w')
        ∧ DKeys ".env.local"
            (stripped_keys
               (universal_newlines
                  (unlines ["# local"; "OPENAI_API_KEY = sk-local"; "MODE=dev"])))
          ∈ stderr w'
        ∧ stripped_keys
            (universal_newlines
               (unlines ["# local"; "OPENAI_API_KEY = sk-local"; "MODE=dev"]))
          = text_of_string <$> ["OPENAI_API_KEY"; "MODE"].
Proof.
  destruct (key_listing_stripped "/w" sample_dotenv_values utf8_decode sample_world)
    as (_ & w' & Hrun & Hkeys); [vm_compute; reflexivity|].
  exists w'. split; [exact Hrun|]. split; [|vm_compute; reflexivity].
  apply (Hkeys ".env.local"
           (unlines ["# local"; "OPENAI_API_KEY = sk-local"; "MODE=dev"])
           (text_of_string
              (unlines ["# local"; "OPENAI_API_KEY = sk-local"; "MODE=dev"]))).
  - apply list_elem_of_here.
  - reflexivity.
  - vm_compute. reflexivity.
Defined.

(** C7 as stated fails: the call with an attachment that does not exist
    returns [None] instead of raising, and the script ends through
    [sys.exit(1)], not through an uncaught I/O error. *)
Lemma missing_attachment_not_propagated :
  (query_llm sample_guess_type (λ _, answering "Hi there")
     "What is this?" (Some (answering "Hi there")) None (Some "missing.png")
     sample_world).1 = Ok None
  ∧ (query_llm sample_guess_type (λ _, answering "Hi there")
       "What is this?" (Some (answering "Hi there")) None (Some "missing.png")
       sample_world).1 ≠ Raise (FileNotFoundError "missing.png")
  ∧ (script "/w" sample_dotenv_values utf8_decode sample_guess_type
       (λ _, answering "Hi there")
       (Args "What is this?" None (Some "missing.png")) sample_world).1
    = Raise (SystemExit 1).
Proof. vm_compute. repeat split; discriminate. Qed.

(** C9 as stated fails: a key written with a blank before the [=] is
    listed without the blank. *)
Lemma key_listing_not_verbatim :
  keys_comprehension (file_lines "A =1") = Ok [text_of_string "A"]
  ∧ claimed_keys "A =1" = [text_of_string "A "]
  ∧ keys_comprehension (file_lines "A =1") ≠ Ok (claimed_keys "A =1")
  ∧ DKeys ".env" [text_of_string "A"]
    ∈ stderr (load_environment "/w" sample_dotenv_values utf8_decode
                (env_only_world (Readable "A =1"))).2.
Proof.
  vm_compute. repeat split; try discriminate.
  do 6 apply list_elem_of_further. apply list_elem_of_here.
Qed.

(** C8 on the empty answer: [query_llm] returns the empty string, which
    is not [None], yet [main] prints nothing and ends through
    [sys.exit(1)]. *)
Lemma empty_response_exits_1 :
  (query_llm sample_guess_type (λ _, answering EmptyString)
     "Hello" None None None keyed_world).1 = Ok (Some EmptyString)
  ∧ stdout (main sample_guess_type (λ _, answering EmptyString)
              (Args "Hello" None None) keyed_world).2 = []
  ∧ exit_status (main sample_guess_type (λ _, answering EmptyString)
                   (Args "Hello" None None) keyed_world).1 = 1.
Proof. vm_compute. repeat split. Qed.

(** The end-to-end run of the specification: prompt "Hello", no model,
    no attachment, the transport answering "Hi there". *)
Lemma hello_hi_there :
  requests (script "/w" sample_dotenv_values utf8_decode sample_guess_type
              (λ _, answering "Hi there") (Args "Hello" None None) sample_world).2
  = [hello_payload]
  ∧ stdout (script "/w" sample_dotenv_values utf8_decode sample_guess_type
            (λ _, answering "Hi there") (Args "Hello" None None) sample_world).2
  = ["Hi there"]
  ∧ exit_status (script "/w" sample_dotenv_values utf8_decode sample_guess_type
                   (λ _, answering "Hi there") (Args "Hello" None None)
                   sample_world).1 = 0.
Proof. vm_compute. repeat split. Qed.

(** ** The further properties on concrete runs *)

Lemma unopenable_candidate_aborts_witness :
  (load_environment "/w" sample_dotenv_values utf8_decode locked_env_world).1
  = Raise (PermissionError ".env")
  ∧ (script "/w" sample_dotenv_values utf8_decode sample_guess_type
       (λ _, answering "Hi there") (Args "Hello" None None) locked_env_world).1
    = Raise (PermissionError ".env")
  ∧ exit_status
      (script "/w" sample_dotenv_values utf8_decode sample_guess_type
         (λ _, answering "Hi there") (Args "Hello" None None) locked_env_world).1
    = 1.
Proof.
  destruct (unopenable_candidate_aborts "/w" sample_dotenv_values utf8_decode
              sample_guess_type
              (λ _, answering "Hi there") [".env.local"] [".env.example"] ".env"
              (Args "Hello" None None) locked_env_world)
    as (Hload & _ & Hscript & _ & _ & Hexit);
    [reflexivity | vm_compute; reflexivity | reflexivity |].
  repeat split; assumption.
Defined.

Lemma no_env_files_warning_witness :
  reported_by (load_environment "/w" sample_dotenv_values utf8_decode) bare_world =
  [DCwd "/w"; DLooking env_files;
   DChecking "/w" ".env.local"; DChecking "/w" ".env"; DChecking "/w" ".env.example";
   DNoEnvFiles; DSystemVars []].
Proof.
  destruct (no_env_files_warning "/w" sample_dotenv_values utf8_decode bare_world)
    as [_ Hnone]; [reflexivity|].
  destruct Hnone as [_ Hlog]; [reflexivity|]. exact Hlog.
Defined.

Lemma all_candidates_checked_witness :
  List.filter is_checking
    (reported_by (load_environment "/w" sample_dotenv_values utf8_decode)
       sample_world) =
  [DChecking "/w" ".env.local"; DChecking "/w" ".env"; DChecking "/w" ".env.example"].
Proof.
  apply (all_candidates_checked "/w" sample_dotenv_values utf8_decode sample_world).
  vm_compute. reflexivity.
Defined.


Lemma load_environment_idempotent_witness :
  environ (load_environment "/w" sample_dotenv_values utf8_decode
             (load_environment "/w" sample_dotenv_values utf8_decode
                sample_world).2).2
  = environ (load_environment "/w" sample_dotenv_values utf8_decode
               sample_world).2.
Proof.
  refine (proj2 (load_environment_idempotent "/w" sample_dotenv_values utf8_decode
                   sample_world _ _)).
  - vm_compute. reflexivity.
  - intros env env' text. reflexivity.
Defined.

Lemma first_choice_returned_witness :
  query_llm sample_guess_type
    (λ _ _, Ok (Response [Some "first"; Some "second"]))
    "Hello" None None None keyed_world
  = (Ok (Some "first"), add_request hello_payload keyed_world).
Proof.
  apply (first_choice_returned sample_guess_type
           (λ _ _, Ok (Response [Some "first"; Some "second"]))
           "Hello" None None None keyed_world
           (λ _, Ok (Response [Some "first"; Some "second"])) []
           hello_payload (Some "first") [Some "second"]); reflexivity.
Defined.

Lemma no_choices_gives_None_witness :
  query_llm sample_guess_type (λ _ _, Ok (Response []))
    "Hello" None None None keyed_world
  = (Ok None,
     add_stderr (DQueryError IndexError) (add_request hello_payload keyed_world)).
Proof.
  refine (proj1 (no_choices_gives_None sample_guess_type (λ _ _, Ok (Response []))
                   "Hello" None None None keyed_world (λ _, Ok (Response [])) []
                   hello_payload _ _ _ _)); reflexivity.
Defined.

Lemma non_exception_error_propagates_witness :
  main sample_guess_type (λ _, failing (ClientError false "KeyboardInterrupt"))
    (Args "Hello" None None) keyed_world
  = (Raise (ClientError false "KeyboardInterrupt"),
     add_request hello_payload keyed_world).
Proof.
  refine (proj2 (non_exception_error_propagates sample_guess_type
                   (λ _, failing (ClientError false "KeyboardInterrupt"))
                   "Hello" None None None keyed_world
                   (failing (ClientError false "KeyboardInterrupt")) []
                   hello_payload (ClientError false "KeyboardInterrupt")
                   _ _ _ _ _)); reflexivity.
Defined.

(** The help text goes to stdout and the program ends with status 0,
    before any request. *)
Lemma cli_prints_iff_returns_witness :
  run_cli sample_guess_type answering sample_parse_args ["--help"] keyed_world
  = (Raise (SystemExit 0),
     World (environ keyed_world) ∅ []
           [sample_usage; "Query OpenAI with a prompt"] [])
  ∧ sent_by (run_cli sample_guess_type answering sample_parse_args ["--help"])
      keyed_world = [].
Proof.
  exact (cli_prints_iff_returns sample_guess_type answering sample_parse_args
           ["--help"] keyed_world).
Defined.

Lemma system_credential_wins_witness :
  script "/w" sample_dotenv_values utf8_decode sample_guess_type answering
    (Args "Hello" None None)
    (World (<["OPENAI_API_KEY" := "sk-system"]> ∅) sample_fs [] [] [])
  = conclude
      (query_llm sample_guess_type answering "Hello" (Some (answering "sk-system"))
         None None
         (load_environment "/w" sample_dotenv_values utf8_decode
            (World (<["OPENAI_API_KEY" := "sk-system"]> ∅) sample_fs [] [] [])).2).
Proof.
  apply (system_credential_wins "/w" sample_dotenv_values utf8_decode
           sample_guess_type
           answering (Args "Hello" None None)
           (World (<["OPENAI_API_KEY" := "sk-system"]> ∅) sample_fs [] [] [])
           "sk-system"); [vm_compute; reflexivity | reflexivity | discriminate].
Defined.

Lemma local_file_credential_used_witness :
  script "/w" sample_dotenv_values utf8_decode sample_guess_type answering
    (Args "Hello" None None) sample_world
  = conclude
      (query_llm sample_guess_type answering "Hello" (Some (answering "sk-local"))
         None None
         (load_environment "/w" sample_dotenv_values utf8_decode sample_world).2).
Proof.
  apply (local_file_credential_used "/w" sample_dotenv_values utf8_decode
           sample_guess_type
           answering (Args "Hello" None None) sample_world "sk-local");
    [vm_compute; reflexivity | reflexivity | vm_compute; reflexivity
     | discriminate].
Defined.

(** Two files under different names, guessed to be of different types,
    with the same payload: they hold the same bytes. *)
Lemma encoded_payload_determines_bytes_witness :
  ∃ bytes, fs sample_world !! "cat.jpg" = Some (Readable bytes)
           ∧ fs sample_world !! "copy.png" = Some (Readable bytes)
           ∧ b64decode "Zm9vYmFy" = Some bytes.
Proof.
  apply (encoded_payload_determines_bytes sample_guess_type "cat.jpg" "copy.png"
           "Zm9vYmFy" "image/jpeg" "image/png"
           sample_world sample_world sample_world sample_world); reflexivity.
Defined.

Lemma encode_image_file_result_witness :
  sample_world = sample_world
  ∧ "image/jpeg" ≠ EmptyString
  ∧ ∃ bytes,
      fs sample_world !! "cat.jpg" = Some (Readable bytes)
      ∧ String.length "Zm9vYmFy" = (4 * ((String.length bytes + 2) / 3))%nat
      ∧ Forall (λ c : ascii, contains_char c b64_alphabet = true ∨ c = "="%char)
          (String.list_ascii_of_string "Zm9vYmFy").
Proof.
  apply (encode_image_file_result sample_guess_type "cat.jpg" "Zm9vYmFy"
           "image/jpeg" sample_world sample_world). reflexivity.
Defined.

(** ** Checks on concrete inputs *)

(** The test vectors of RFC 4648, section 10. *)
Example b64encode_vectors :
  b64encode EmptyString = EmptyString
  ∧ b64encode "f" = "Zg=="
  ∧ b64encode "fo" = "Zm8="
  ∧ b64encode "foo" = "Zm9v"
  ∧ b64encode "foob" = "Zm9vYg=="
  ∧ b64encode "fooba" = "Zm9vYmE="
  ∧ b64encode "foobar" = "Zm9vYmFy".
Proof. repeat split. Qed.

Example split_examples :
  split "=" "A=b=c" = text_of_string <$> ["A"; "b"; "c"]
  ∧ split "=" "=" = [[]; []]
  ∧ split "=" "plain" = [text_of_string "plain"]
  ∧ split "=" [] = [[]].
Proof. vm_compute. repeat split. Qed.

Example strip_examples :
  strip "  a b  " = text_of_string "a b"
  ∧ strip ([LF] ++ text_of_string "KEY" ++ [9%N; CR; LF])%list
    = text_of_string "KEY"
  ∧ strip "   " = []
  ∧ strip ([160%N; 8195%N] ++ text_of_string "KEY" ++ [12288%N; 133%N])%list
    = text_of_string "KEY".
Proof. vm_compute. repeat split. Qed.

Example file_lines_examples :
  (file_lines (text_of_string "a" ++ [LF] ++ text_of_string "b")
   = [text_of_string "a" ++ [LF]; text_of_string "b"]
   ∧ file_lines (text_of_string "a" ++ [LF]) = [text_of_string "a" ++ [LF]]
   ∧ file_lines (universal_newlines
                   (text_of_string "A=1" ++ [CR; LF] ++ text_of_string "B=2"
                    ++ [CR] ++ text_of_string "C=3"))
     = [text_of_string "A=1" ++ [LF]; text_of_string "B=2" ++ [LF];
        text_of_string "C=3"])%list.
Proof. vm_compute. repeat split. Qed.

(** Comment lines and lines without [=] are dropped from the listing; a
    [#] after leading blanks does not make a comment. *)
Example keys_comprehension_example :
  keys_comprehension
    (file_lines (unlines ["# A=1"; "B = 2"; "no binding"; " #C=3"; "=x"; "D=4=5"]))
  = Ok (text_of_string <$> ["B"; "#C"; EmptyString; "D"]).
Proof. vm_compute. reflexivity. Qed.

(** UTF-8 as python-dotenv reads it: two bytes for U+00E0, three for
    U+20AC, four for U+1F600; a stray continuation byte, an overlong
    form, a surrogate and a truncated character are rejected. *)
Example utf8_decode_examples :
  utf8_decode accented_line = Some [224%N; 61%N; 49%N]
  ∧ utf8_decode (String "226" (String "130" (String "172" EmptyString)))
    = Some [8364%N]
  ∧ utf8_decode (String "240" (String "159" (String "152" (String "128" EmptyString))))
    = Some [128512%N]
  ∧ utf8_decode stray_byte_line = None
  ∧ utf8_decode (String "192" (String "128" EmptyString)) = None
  ∧ utf8_decode (String "237" (String "160" (String "128" EmptyString))) = None
  ∧ utf8_decode (String "195" EmptyString) = None.
Proof. vm_compute. repeat split. Qed.

(** A candidate that is not UTF-8 stops the loading inside
    [load_dotenv], before the line that reports it loaded, whatever the
    locale's codec is. *)
Example load_environment_stray_byte :
  load_environment "/w" sample_dotenv_values latin1_decode
    (env_only_world (Readable stray_byte_line))
  = (Raise UnicodeDecodeError,
     World ∅ (<[".env" := Readable stray_byte_line]> ∅)
       [DCwd "/w"; DLooking env_files; DChecking "/w" ".env.local";
        DChecking "/w" ".env"; DFound ".env"] [] []).
Proof. vm_compute. reflexivity. Qed.

(** A candidate that is UTF-8 but that the locale's codec rejects is
    loaded into the environment and reported loaded; reading it for the
    key listing then fails. *)
Example load_environment_locale_rejects :
  load_environment "/w" sample_dotenv_values ascii_decode
    (env_only_world (Readable accented_line))
  = (Raise UnicodeDecodeError,
     World (<[String "224" EmptyString := "1"]> ∅)
       (<[".env" := Readable accented_line]> ∅)
       [DCwd "/w"; DLooking env_files; DChecking "/w" ".env.local";
        DChecking "/w" ".env"; DFound ".env"; DLoaded ".env"] [] []).
Proof. vm_compute. reflexivity. Qed.

(** With a UTF-8 locale the same file is listed with the one-character
    key U+00E0. *)
Example load_environment_accented_key :
  reported_by (load_environment "/w" sample_dotenv_values utf8_decode)
    (env_only_world (Readable accented_line))
  = [DCwd "/w"; DLooking env_files; DChecking "/w" ".env.local";
     DChecking "/w" ".env"; DFound ".env"; DLoaded ".env";
     DKeys ".env" [[224%N]]; DChecking "/w" ".env.example"].
Proof. vm_compute. reflexivity. Qed.

(** A directory named .env passes the existence test, is skipped by
    [load_dotenv], is reported loaded, and then cannot be opened. *)
Example load_environment_directory :
  load_environment "/w" sample_dotenv_values utf8_decode (env_only_world Directory)
  = (Raise (IsADirectoryError ".env"),
     World ∅ (<[".env" := Directory]> ∅)
       [DCwd "/w"; DLooking env_files; DChecking "/w" ".env.local";
        DChecking "/w" ".env"; DFound ".env"; DLoaded ".env"] [] []).
Proof. vm_compute. reflexivity. Qed.

(** The command line: a usage error ends with status 2 and nothing on
    stdout; with the prompt given the request goes out and the answer
    is printed. *)
Example run_cli_examples :
  (run_cli sample_guess_type answering sample_parse_args ["--model"; "o1"]
     keyed_world).1 = Raise (SystemExit 2)
  ∧ stdout (run_cli sample_guess_type answering sample_parse_args
              ["--model"; "o1"] keyed_world).2 = []
  ∧ run_cli sample_guess_type (λ _, answering "Hi there") sample_parse_args
      ["--prompt"; "Hello"] keyed_world
    = (Ok tt, World (environ keyed_world) ∅ [] ["Hi there"] [hello_payload]).
Proof. vm_compute. repeat split. Qed.

(** The three candidate files of [sample_world] overlap on every name:
    each name ends with the value of the first source that defines it. *)
Example load_environment_sample :
  let env := environ (load_environment "/w" sample_dotenv_values utf8_decode
                        sample_world).2 in
  env !! "MODE" = Some "system"
  ∧ env !! "OPENAI_API_KEY" = Some "sk-local"
  ∧ env !! "REGION" = Some "eu"
  ∧ env !! "TIMEOUT" = Some "30"
  ∧ env !! "HOME" = Some "/root"
  ∧ size env = 5%nat.
Proof. vm_compute. repeat split. Qed.
